(** * Titan stats: counters, per-request and batch aggregation, persistence

    A shallow embedding of [titan/stats/stats.py].

    Conventions of the embedding.
    - Python numbers are modelled by their exact rational value ([Qc],
      canonical rationals, so that Python's [==] on numbers is Leibniz
      equality).  An [int] and a [float] of the same value are identified,
      and float arithmetic is taken without rounding error.  [int(x)] and
      [round(x)] keep their Python 2 meaning on that value.
    - Exceptions are modelled by the [result] monad; the state reached by a
      call that raises is not observed, except for the counter of a
      decorator, which outlives the call.
    - Counter objects are records; where the source shares one object
      between several containers ([_RequestProcessor]), the objects live in
      a store indexed by references.
    - Dictionaries are finite maps; a loop over a dictionary visits it in
      the order of [map_to_list].
    - The wrappers of the decorators and the read-side service are
      modelled with what they call outside this file as parameters.  The
      WSGI middleware, the activity logger and [log_counters] only pass
      counters on to the parts below and are left out. *)

From Stdlib Require Import ZArith QArith Qcanon String Ascii Lia.
From stdpp Require Import base option list gmap strings numbers sorting.

Local Open Scope Z_scope.

(** ** Python numbers *)

(** [int(x)] on a number: truncation toward zero. *)
Definition py_int (x : Qc) : Z := Z.quot (Qnum x) (Z.pos (Qden x)).

(** [round(x)] of Python 2: the nearest integer, halves away from zero. *)
Definition py_round (x : Qc) : Z :=
  Z.sgn (Qnum x) * ((2 * Z.abs (Qnum x) + Z.pos (Qden x)) / (2 * Z.pos (Qden x))).

(** ** Exceptions *)

Inductive exn : Type :=
  | ValueError
  | AssertionError
  | TypeError
  | ZeroDivisionError
  | NotImplementedError
  | AttributeError
  | KeyError.

Inductive result (A : Type) : Type :=
  | Ok (a : A)
  | Raise (e : exn).
Arguments Ok {A} a.
Arguments Raise {A} e.

#[global] Instance result_ret : MRet result := @Ok.
#[global] Instance result_bind : MBind result := λ A B f m,
  match m with
  | Ok a => f a
  | Raise e => Raise e
  end.

(** Python's [assert]. *)
Definition py_assert (b : bool) : result unit :=
  if b then Ok tt else Raise AssertionError.

(** A monadic left fold: a [for] loop whose body may raise. *)
Fixpoint for_each {A S : Type} (body : S → A → result S) (xs : list A)
    (s : S) : result S :=
  match xs with
  | [] => Ok s
  | x :: xs' => s' ← body s x; for_each body xs' s'
  end.

(** ** Values exchanged between counters, records and stored series

    [finalize()] returns a number ([Counter], [StaticCounter]) or a
    [(value, weight)] tuple (averaging counters).  After a trip through
    JSON a tuple comes back as a two-element list, which Python compares
    unequal to every tuple. *)
Inductive pyval : Type :=
  | PNum (x : Qc)
  | PTuple (value : Qc) (weight : Z)
  | PList (value : Qc) (weight : Z).

#[global] Instance pyval_eq_dec : EqDecision pyval.
Proof. solve_decision. Defined.

(** [json.loads(json.dumps(v))]. *)
Definition json_roundtrip (v : pyval) : pyval :=
  match v with
  | PNum x => PNum x
  | PTuple x w | PList x w => PList x w
  end.

(** ** Constants *)

Definition DEFAULT_WINDOW_SIZE : Z := 60.
Definition STATS_ETA_DELTA : Z := 60.
Definition BASE_DIR : string := "/_titan/stats/counters".
Definition DATE_FORMAT : string := "%Y/%m/%d".
Definition DATA_FILENAME : string := "data-60s.json".

(** ** Counters *)

Module Counters.

(** The classes of the hierarchy
    [AbstractBaseCounter <- Counter <- {AverageCounter <- AverageTimingCounter,
    StaticCounter}]. *)
Inductive counter_class : Type :=
  | AbstractBaseCounter
  | Counter
  | AverageCounter
  | AverageTimingCounter
  | StaticCounter.

#[global] Instance counter_class_eq_dec : EqDecision counter_class.
Proof. solve_decision. Defined.

(** The attributes of a counter object.  [_weight] is only meaningful for
    the averaging classes and [_start] for [AverageTimingCounter]; the
    other classes never read them. *)
Record counter : Type := mk_counter {
  cls : counter_class;
  name : string;
  date_format : string;
  data_filename : string;
  timestamp : option Z;
  _value : Qc;
  _weight : Z;
  _start : option Qc
}.

Definition set_value (x : Qc) (c : counter) : counter :=
  mk_counter (cls c) (name c) (date_format c) (data_filename c)
             (timestamp c) x (_weight c) (_start c).
Definition set_weight (w : Z) (c : counter) : counter :=
  mk_counter (cls c) (name c) (date_format c) (data_filename c)
             (timestamp c) (_value c) w (_start c).
Definition set_start (s : option Qc) (c : counter) : counter :=
  mk_counter (cls c) (name c) (date_format c) (data_filename c)
             (timestamp c) (_value c) (_weight c) s.
Definition set_timestamp (t : option Z) (c : counter) : counter :=
  mk_counter (cls c) (name c) (date_format c) (data_filename c)
             t (_value c) (_weight c) (_start c).

(** The class attribute [overwrite]. *)
Definition overwrite (c : counter) : bool :=
  match cls c with
  | StaticCounter => true
  | _ => false
  end.

(** *** String tests used by the constructor *)

(** [ch in s] for a one-character [ch]. *)
Fixpoint contains_char (ch : ascii) (s : string) : bool :=
  match s with
  | EmptyString => false
  | String a s' => if Ascii.eqb a ch then true else contains_char ch s'
  end.

(** [s.startswith(ch)] for a one-character [ch]. *)
Definition startswith_char (ch : ascii) (s : string) : bool :=
  match s with
  | EmptyString => false
  | String a _ => Ascii.eqb a ch
  end.

(** [s.endswith(ch)] for a one-character [ch]. *)
Fixpoint endswith_char (ch : ascii) (s : string) : bool :=
  match s with
  | EmptyString => false
  | String a EmptyString => Ascii.eqb a ch
  | String _ s' => endswith_char ch s'
  end.

(** *** Construction

    [AbstractBaseCounter.__init__], reached through [super().__init__] by
    every subclass; the subclasses then initialise [_value], [_weight] and
    [_start]. *)
Definition __init__ (k : counter_class) (name : string)
    (date_format data_filename : string) : result counter :=
  if contains_char ":" name then Raise ValueError
  else if startswith_char "/" name || endswith_char "/" name then Raise ValueError
  else Ok (mk_counter k name date_format data_filename None 0%Qc 0 None).

(** Construction with the default [date_format] and [data_filename]. *)
Definition new (k : counter_class) (name : string) : result counter :=
  __init__ k name DATE_FORMAT DATA_FILENAME.

(** *** Methods, class by class *)

(** [Counter.offset]: [self._value += value]. *)
Definition Counter_offset (value : Qc) (c : counter) : result counter :=
  Ok (set_value (_value c + value)%Qc c).

(** [Counter.increment]: [self._value += 1]. *)
Definition Counter_increment (c : counter) : result counter :=
  Ok (set_value (_value c + 1)%Qc c).

(** [AverageCounter.aggregate]. *)
Definition AverageCounter_aggregate (value : pyval) (c : counter)
    : result counter :=
  match value with
  | PNum _ => Raise TypeError                   (* value, weight = value *)
  | PTuple value weight | PList value weight =>
      if weight =? 0 then Ok c                  (* empty counter: return *)
      else
        let v1 := (_value c * Qc_of_Z (_weight c))%Qc in
        let v2 := (v1 + value * Qc_of_Z weight)%Qc in
        let w2 := _weight c + weight in
        if w2 =? 0 then Raise ZeroDivisionError
        else Ok (set_weight w2 (set_value (v2 / Qc_of_Z w2)%Qc c))
  end.

(** [AverageCounter.offset]: [self.aggregate((value, 1))]; [self.aggregate]
    is [AverageCounter.aggregate] in both averaging classes. *)
Definition AverageCounter_offset (value : Qc) (c : counter) : result counter :=
  AverageCounter_aggregate (PTuple value 1) c.

(** [AverageCounter.increment]: [self.aggregate((1, 1))]. *)
Definition AverageCounter_increment (c : counter) : result counter :=
  AverageCounter_aggregate (PTuple 1%Qc 1) c.

(** Method resolution of [offset]. *)
Definition offset (value : Qc) (c : counter) : result counter :=
  match cls c with
  | AbstractBaseCounter => Raise AttributeError
  | Counter | StaticCounter => Counter_offset value c
  | AverageCounter | AverageTimingCounter => AverageCounter_offset value c
  end.

(** Method resolution of [increment]. *)
Definition increment (c : counter) : result counter :=
  match cls c with
  | AbstractBaseCounter => Raise AttributeError
  | Counter | StaticCounter => Counter_increment c
  | AverageCounter | AverageTimingCounter => AverageCounter_increment c
  end.

(** [Counter.aggregate]: [self.offset(value)]; adding a tuple or a list to
    a number is a [TypeError]. *)
Definition Counter_aggregate (value : pyval) (c : counter) : result counter :=
  match value with
  | PNum x => offset x c
  | PTuple _ _ | PList _ _ => Raise TypeError
  end.

(** [StaticCounter.aggregate]: [self._value = value].  Python stores any
    value; here [_value] is a number, so a pair is outside the model and is
    reported as a [TypeError]. *)
Definition StaticCounter_aggregate (value : pyval) (c : counter)
    : result counter :=
  match value with
  | PNum x => Ok (set_value x c)
  | PTuple _ _ | PList _ _ => Raise TypeError
  end.

(** Method resolution of [aggregate]. *)
Definition aggregate (value : pyval) (c : counter) : result counter :=
  match cls c with
  | AbstractBaseCounter => Raise NotImplementedError
  | Counter => Counter_aggregate value c
  | AverageCounter | AverageTimingCounter => AverageCounter_aggregate value c
  | StaticCounter => StaticCounter_aggregate value c
  end.

(** [Counter.finalize]. *)
Definition Counter_finalize (c : counter) : result pyval :=
  Ok (PNum (_value c)).

(** [AverageCounter.finalize]. *)
Definition AverageCounter_finalize (c : counter) : result pyval :=
  Ok (PTuple (_value c) (_weight c)).

(** [AverageTimingCounter.finalize]. *)
Definition AverageTimingCounter_finalize (c : counter) : result pyval :=
  _ ← py_assert (bool_decide (_start c = None));
  r ← AverageCounter_finalize c;
  match r with
  | PTuple value weight => Ok (PTuple (Qc_of_Z (py_int value)) weight)
  | _ => Raise TypeError
  end.

(** Method resolution of [finalize]. *)
Definition finalize (c : counter) : result pyval :=
  match cls c with
  | AbstractBaseCounter => Raise NotImplementedError
  | Counter | StaticCounter => Counter_finalize c
  | AverageCounter => AverageCounter_finalize c
  | AverageTimingCounter => AverageTimingCounter_finalize c
  end.

(** [AverageTimingCounter.start]; [now] is the value of [time.time()]. *)
Definition start (now : Qc) (c : counter) : result counter :=
  match cls c with
  | AverageTimingCounter =>
      _ ← py_assert (bool_decide (_start c = None));
      Ok (set_start (Some now) c)
  | _ => Raise AttributeError
  end.

(** [AverageTimingCounter.stop]; [now] is the value of [time.time()]. *)
Definition stop (now : Qc) (c : counter) : result counter :=
  match cls c with
  | AverageTimingCounter =>
      match _start c with
      | None => Raise AssertionError
      | Some t0 =>
          c' ← offset (Qc_of_Z (py_int ((now - t0) * Qc_of_Z 1000)%Qc)) c;
          Ok (set_start None c')
      end
  | _ => Raise AttributeError
  end.

End Counters.

Export Counters.

(** ** The window bucketer *)

(** [_get_window(timestamp, window_size)]:
    [int(window_size * round(float(timestamp) / window_size))]. *)
Definition _get_window (timestamp window_size : Qc) : result Z :=
  if bool_decide (window_size = 0%Qc) then Raise ZeroDivisionError
  else
    Ok (py_int (window_size
                * Qc_of_Z (py_round (timestamp / window_size)))%Qc).

(** ** Records and factories shared by the aggregators *)

(** [{'window': window, 'counters': {...}}] *)
Record window_data : Type := mk_window_data {
  window : Z;
  counters : gmap string pyval
}.

(** A counter factory ([counters_func]): every call creates the same fresh
    counters. *)
Definition factory : Type := unit → list counter.

(** ** The per-request aggregator *)

Module RequestProcessor.

(** Counter objects are shared between [activity.counters],
    [final_counters] and [names_to_counters]: the containers hold
    references into a store of objects. *)
Definition loc : Type := nat.
Definition heap : Type := loc → counter.

(** The store after the object at [l] was mutated into [c]. *)
Definition heap_set (l : loc) (c : counter) (h : heap) : heap :=
  λ l', if decide (l' = l) then c else h l'.

Record _RequestProcessor : Type := mk_RequestProcessor {
  counters_func : factory;
  final_counters : list loc;
  names_to_counters : gmap string loc;
  window_counter_data : gmap Z window_data;
  default_window : Z
}.

Definition set_final_counters (fc : list loc) (p : _RequestProcessor) :=
  mk_RequestProcessor (counters_func p) fc (names_to_counters p)
                      (window_counter_data p) (default_window p).
Definition set_names_to_counters (m : gmap string loc) (p : _RequestProcessor) :=
  mk_RequestProcessor (counters_func p) (final_counters p) m
                      (window_counter_data p) (default_window p).
Definition set_window_counter_data (d : gmap Z window_data)
    (p : _RequestProcessor) :=
  mk_RequestProcessor (counters_func p) (final_counters p)
                      (names_to_counters p) d (default_window p).

(** [_RequestProcessor.__init__]; [now] is the value of [time.time()]. *)
Definition __init__ (f : factory) (now : Qc) : result _RequestProcessor :=
  w ← _get_window now (Qc_of_Z DEFAULT_WINDOW_SIZE);
  Ok (mk_RequestProcessor f [] ∅ ∅ w).

(** One iteration of the first loop of [process]
    ("Aggregate data from counters of the same name"). *)
Definition dedup_one (l : loc) (h : heap) (p : _RequestProcessor)
    : result (heap * _RequestProcessor) :=
  let c := h l in
  match names_to_counters p !! name c with
  | None =>
      Ok (h, set_final_counters (final_counters p ++ [l])
               (set_names_to_counters
                  (<[name c := l]> (names_to_counters p)) p))
  | Some rep =>
      match timestamp c with
      | Some _ =>
          Ok (h, set_final_counters (final_counters p ++ [l]) p)
      | None =>
          v ← finalize c;
          rep' ← aggregate v (h rep);
          Ok (heap_set rep rep' h, p)
      end
  end.

(** The first loop of [process]. *)
Fixpoint dedup (ls : list loc) (h : heap) (p : _RequestProcessor)
    : result (heap * _RequestProcessor) :=
  match ls with
  | [] => Ok (h, p)
  | l :: ls' => '(h', p') ← dedup_one l h p; dedup ls' h' p'
  end.

(** The window a counter is filed under in the second loop. *)
Definition counter_window (default : Z) (c : counter) : Z :=
  match timestamp c with
  | None => default
  | Some t => t
  end.

(** One iteration of the second loop of [process]
    ("Break the counters up into windows of time"). *)
Definition place_one (h : heap) (default : Z) (l : loc)
    (wcd : gmap Z window_data) : result (gmap Z window_data) :=
  let c := h l in
  let w := counter_window default c in
  let wcd1 :=
    match wcd !! w with
    | None => <[w := mk_window_data w ∅]> wcd
    | Some _ => wcd
    end in
  v ← finalize c;
  Ok (alter (λ d, mk_window_data (window d) (<[name c := v]> (counters d)))
            w wcd1).

(** The second loop of [process]. *)
Fixpoint place (h : heap) (default : Z) (ls : list loc)
    (wcd : gmap Z window_data) : result (gmap Z window_data) :=
  match ls with
  | [] => Ok wcd
  | l :: ls' => wcd' ← place_one h default l wcd; place h default ls' wcd'
  end.

(** [_RequestProcessor.process(activity)], with [cs] the references held
    by [activity.counters]. *)
Definition process (cs : list loc) (h : heap) (p : _RequestProcessor)
    : result (heap * _RequestProcessor) :=
  match cs with
  | [] => Ok (h, p)
  | _ =>
      '(h1, p1) ← dedup cs h p;
      wcd ← place h1 (default_window p1) (final_counters p1)
                  (window_counter_data p1);
      Ok (h1, set_window_counter_data wcd p1)
  end.

(** [_RequestProcessor.serialize]. *)
Definition serialize (p : _RequestProcessor) : gmap Z window_data :=
  window_counter_data p.

End RequestProcessor.

(** ** Stored series and the store *)

(** A series: [(window, value)] entries in list order. *)
Abbreviation series := (list (Z * pyval)).

(** [content.sort(key=lambda tup: tup[0])]: a stable sort by window. *)
Fixpoint insert_by_window (e : Z * pyval) (l : series) : series :=
  match l with
  | [] => [e]
  | e' :: l' =>
      if e.1 <=? e'.1 then e :: l else e' :: insert_by_window e l'
  end.

Definition sort_by_window (l : series) : series :=
  foldr insert_by_window [] l.

(** Modelled from the spec: the store collaborator ([titan.files], which is
    not part of this file) offers an existence check by key, a read by key
    and a write with metadata by key.  A stored file holds the decoded JSON
    content and the metadata [stats_counter_name] and [stats_date]. *)
Record stored_file : Type := mk_stored_file {
  content : series;
  stats_counter_name : string;
  stats_date : Z
}.

(** [json.loads(titan_file.content)] if the file exists, else [[]]. *)
Definition read_content (st : gmap string stored_file) (path : string)
    : series :=
  match st !! path with
  | Some f => content f
  | None => []
  end.

(** The midnight that starts the UTC day of a unix time:
    [datetime.datetime(d.year, d.month, d.day)]. *)
Definition day_start (t : Z) : Z := t / 86400 * 86400.

(** ** The persistence merger *)

Module Persistence.

(** [{'counters': {...}, 'window': window}] as built by [finalize]. *)
Record aggregate_data : Type := mk_aggregate_data {
  ad_counters : gmap string counter;
  ad_window : Z
}.

(** An entry of [window_files]; the path is its key. *)
Record file_item : Type := mk_file_item {
  fi_content : series;
  fi_counter_name : string;
  fi_window_datetime : Z
}.

(** The body of the loop over [old_content], on the loop state
    [(window_exists, content, counter)]. *)
Definition merge_step (window : Z) (s : bool * series * counter)
    (e : Z * pyval) : result (bool * series * counter) :=
  let '(window_exists, new_content, c) := s in
  let '(old_window, old_value) := e in
  '(window_exists, new_content) ←
    (if (window <? old_window) && negb window_exists then
       v ← finalize c; Ok (true, new_content ++ [(window, v)])
     else Ok (window_exists, new_content));
  '(window_exists, old_value, c) ←
    (if old_window =? window then
       v ← finalize c;
       if bool_decide (old_value ≠ v) then
         c ← (if negb (overwrite c) then aggregate old_value c else Ok c);
         v' ← finalize c;
         Ok (true, v', c)
       else Ok (true, old_value, c)
     else Ok (window_exists, old_value, c));
  Ok (window_exists, new_content ++ [(old_window, old_value)], c).

(** "Add the counter data if it doesn't exist or is different": the new
    content of one file for one counter and window, and the counter as the
    merge leaves it. *)
Definition merge_window (window : Z) (c : counter) (old_content : series)
    : result (series * counter) :=
  '(window_exists, new_content, c) ←
    for_each (merge_step window) old_content (false, [], c);
  new_content ←
    (if negb window_exists then
       v ← finalize c; Ok (new_content ++ [(window, v)])
     else Ok new_content);
  Ok (sort_by_window new_content, c).

Section Paths.

(** [datetime.datetime.utcfromtimestamp(t).strftime(fmt)]. *)
Variable strftime : Z → string → string.

(** [utils.safe_join] of [titan.common], which is not part of this file. *)
Variable safe_join : list string → string.

(** [_make_log_path], on the window whose UTC date is formatted. *)
Definition _make_log_path (window : Z) (c : counter) : string :=
  safe_join [BASE_DIR; strftime window (date_format c); name c;
             data_filename c].

(** The body of the loop over the counters of one [aggregate_data]; the
    counter mutated by the merge is not used again. *)
Definition save_counter (st : gmap string stored_file) (window : Z)
    (window_files : gmap string file_item) (item : string * counter)
    : result (gmap string file_item) :=
  let '(counter_name, c) := item in
  let path := _make_log_path window c in
  let fi :=
    match window_files !! path with
    | Some fi => fi
    | None => mk_file_item (read_content st path) counter_name window
    end in
  '(new_content, _) ← merge_window window c (fi_content fi);
  Ok (<[path := mk_file_item new_content (fi_counter_name fi)
                             (fi_window_datetime fi)]> window_files).

(** The body of the loop over [final_aggregate_data]. *)
Definition save_aggregate (st : gmap string stored_file)
    (window_files : gmap string file_item) (ad : aggregate_data)
    : result (gmap string file_item) :=
  for_each (save_counter st (ad_window ad))
           (map_to_list (ad_counters ad)) window_files.

(** "Write the changed window files": [json.dumps] of the content, with
    the counter name and the date as metadata. *)
Definition write_files (window_files : gmap string file_item)
    (st : gmap string stored_file) : gmap string stored_file :=
  fold_left
    (λ st' '(path, fi),
       <[path := mk_stored_file
                   (prod_map id json_roundtrip <$> fi_content fi)
                   (fi_counter_name fi)
                   (day_start (fi_window_datetime fi))]> st')
    (map_to_list window_files) st.

(** [_BatchProcessor._save_aggregate_data]. *)
Definition _save_aggregate_data (final_aggregate_data : list aggregate_data)
    (st : gmap string stored_file) : result (gmap string stored_file) :=
  window_files ← for_each (save_aggregate st) final_aggregate_data ∅;
  Ok (write_files window_files st).

End Paths.

End Persistence.

(** ** The batch aggregator *)

Module BatchProcessor.

Record _BatchProcessor : Type := mk_BatchProcessor {
  counters_func : factory;
  window_counters : gmap Z (gmap string counter);
  window_counters_available : gmap Z (gset string);
  (** the counter names reported through [logging.error], oldest first *)
  logged_errors : list string
}.

Definition set_window_counters (wc : gmap Z (gmap string counter))
    (b : _BatchProcessor) :=
  mk_BatchProcessor (counters_func b) wc (window_counters_available b)
                    (logged_errors b).
Definition set_available (av : gmap Z (gset string)) (b : _BatchProcessor) :=
  mk_BatchProcessor (counters_func b) (window_counters b) av (logged_errors b).
Definition log_error (n : string) (b : _BatchProcessor) :=
  mk_BatchProcessor (counters_func b) (window_counters b)
                    (window_counters_available b) (logged_errors b ++ [n]).

(** [_BatchProcessor.__init__]. *)
Definition __init__ (f : factory) : _BatchProcessor :=
  mk_BatchProcessor f ∅ ∅ [].

(** [counter.name in self.window_counters]: the keys of [window_counters]
    are windows, which are numbers, and a string equals no number. *)
Definition name_in_window_counters (n : string)
    (wc : gmap Z (gmap string counter)) : bool := false.

(** [_BatchProcessor._init_counters]. *)
Definition _init_counters (window : Z) (b : _BatchProcessor)
    : _BatchProcessor :=
  let b1 := set_window_counters (<[window := ∅]> (window_counters b)) b in
  let b2 := set_available (<[window := ∅]> (window_counters_available b1)) b1 in
  let counters := counters_func b2 () in
  fold_left
    (λ b' c,
       if name_in_window_counters (name c) (window_counters b') then b'
       else set_window_counters
              (alter (insert (name c) c) window (window_counters b')) b')
    counters b2.

(** The body of the inner loop of [process], with its [try ... except
    KeyError]. *)
Definition aggregate_one (window : Z) (b : _BatchProcessor)
    (item : string * pyval) : result _BatchProcessor :=
  let '(counter_name, counter_value) := item in
  match window_counters b !! window ≫= (.!! counter_name) with
  | None => Ok (log_error counter_name b)                    (* KeyError *)
  | Some c =>
      c' ← aggregate counter_value c;
      let b1 :=
        set_window_counters
          (alter (insert counter_name c') window (window_counters b)) b in
      Ok (set_available
            (alter (λ s, {[counter_name]} ∪ s) window
                   (window_counters_available b1)) b1)
  end.

(** The body of the outer loop of [process]. *)
Definition process_one (b : _BatchProcessor) (data : window_data)
    : result _BatchProcessor :=
  let w := window data in
  let b1 := _init_counters w b in
  for_each (aggregate_one w) (map_to_list (counters data)) b1.

(** [_BatchProcessor.process(window_counter_data)]; [records] are the
    values of the dictionary [window_counter_data] in iteration order. *)
Definition process (records : list window_data) (b : _BatchProcessor)
    : result _BatchProcessor :=
  for_each process_one records b.

Section Finalize.

Import Persistence.

(** [datetime.datetime.utcfromtimestamp(t).strftime(fmt)] and
    [utils.safe_join], as in [Persistence]. *)
Variable strftime : Z → string → string.
Variable safe_join : list string → string.

(** The body of the outer loop of [finalize]: the touched counters of one
    window. *)
Definition collect_window (available : gmap Z (gset string))
    (final_aggregate_data : list aggregate_data)
    (item : Z * gmap string counter) : result (list aggregate_data) :=
  let '(window, counters) := item in
  touched ←
    for_each
      (λ acc c,
         match available !! window with
         | None => Raise KeyError
         | Some names =>
             if bool_decide (name c ∈ names) then Ok (<[name c := c]> acc)
             else Ok acc
         end)
      (map_to_list counters).*2 (∅ : gmap string counter);
  if bool_decide (touched = ∅) then Ok final_aggregate_data
  else Ok (final_aggregate_data ++ [mk_aggregate_data touched window]).

(** [_BatchProcessor.finalize]. *)
Definition finalize (b : _BatchProcessor)
    (st : gmap string stored_file) : result (gmap string stored_file) :=
  final_aggregate_data ←
    for_each (collect_window (window_counters_available b))
             (map_to_list (window_counters b)) [];
  match final_aggregate_data with
  | [] => Ok st
  | _ => _save_aggregate_data strftime safe_join final_aggregate_data st
  end.

End Finalize.

End BatchProcessor.

(** The property [_RequestProcessor.batch_processor]: a clean batch
    processor on the factory of the request processor. *)
Definition batch_processor (p : RequestProcessor._RequestProcessor)
    : BatchProcessor._BatchProcessor :=
  BatchProcessor.__init__ (RequestProcessor.counters_func p).

(** ** The decorators *)

Module Decorators.

(** [Count._make_counters] and [AverageTime._make_counters]. *)
Definition Count_make_counters (counter_name : string)
    : result (list counter) :=
  c ← new Counter counter_name; Ok [c].

Definition AverageTime_make_counters (counter_name : string)
    : result (list counter) :=
  c ← new AverageTimingCounter counter_name; Ok [c].

(** The counter a raising [stop] leaves behind: the assertion raises before
    anything is changed, and the division of [AverageCounter.aggregate]
    raises after [_value] and [_weight] were updated. *)
Definition stop_raised (now : Qc) (c : counter) : counter :=
  match _start c with
  | None => c
  | Some t0 =>
      let value := Qc_of_Z (py_int ((now - t0) * Qc_of_Z 1000)%Qc) in
      set_weight (_weight c + 1)
        (set_value (_value c * Qc_of_Z (_weight c) + value * Qc_of_Z 1)%Qc c)
  end.

Section Wrappers.

Context {A : Type}.

(** The wrapper of [Count.__call__], applied to the decorator's counter
    [self._counter], a [Counter], whose [increment] does not raise; [func]
    is the outcome of the call of the decorated function.  The counter
    outlives the call, also when the call raises. *)
Definition Count_wrapper (func : result A) (c : counter)
    : counter * result A :=
  match increment c with
  | Raise e => (c, Raise e)
  | Ok c1 => (c1, func)
  end.

(** The wrapper of [AverageTime.__call__]; [t0] and [t1] are the values of
    [time.time()] in [start] and in [stop]. *)
Definition AverageTime_wrapper (t0 t1 : Qc) (func : result A) (c : counter)
    : counter * result A :=
  match start t0 c with
  | Raise e => (c, Raise e)
  | Ok c1 =>
      match func with
      | Raise e => (c1, Raise e)
      | Ok result =>
          match stop t1 c1 with
          | Raise e => (stop_raised t1 c1, Raise e)
          | Ok c2 => (c2, Ok result)
          end
      end
  end.

End Wrappers.

End Decorators.

(** ** The read service *)

Module Service.

Section Listing.

(** [files.Files.list(BASE_DIR, recursive=True, filters=filters,
    _internal=True).itervalues()] of [titan.files], which is not part of
    this file: the files listed for a counter name and the two bounds on
    [stats_date], in iteration order. *)
Variable list_files : string → Z → Z → list stored_file.

(** [datetime.datetime(d.year, d.month, d.day)] of a [datetime.date],
    which is given as its number of days since the first of January
    1970. *)
Definition midnight (d : Z) : Z := d * 86400.

(** The bound of the query for an argument: the midnight of the date or,
    without a date, of [now]. *)
Definition bound (now : Z) (date : option Z) : Z :=
  match date with
  | Some d => midnight d
  | None => day_start now
  end.

(** The body of the loop over the files of one counter name. *)
Definition extend_counter_data (counter_name : string)
    (final_counter_data : gmap string series) (titan_file : stored_file)
    : gmap string series :=
  let counter_data := content titan_file in
  let final_counter_data :=
    match final_counter_data !! counter_name with
    | None => <[counter_name := []]> final_counter_data
    | Some _ => final_counter_data
    end in
  alter (λ l, l ++ counter_data) counter_name final_counter_data.

(** [CountersService.get_counter_data]; [now] is the unix time of
    [datetime.datetime.now()], the clock of the server being UTC.
    Ordering a date against [None] is a [TypeError]. *)
Definition get_counter_data (now : Z) (counter_names : list string)
    (start_date end_date : option Z) : result (gmap string series) :=
  _ ← match end_date with
      | None => Ok ()
      | Some e =>
          match start_date with
          | None => Raise TypeError
          | Some s => if e <? s then Raise ValueError else Ok ()
          end
      end;
  let start_date := bound now start_date in
  let end_date := bound now end_date in
  let final_counter_data :=
    fold_left
      (λ final counter_name,
         fold_left (extend_counter_data counter_name)
                   (list_files counter_name start_date end_date) final)
      counter_names ∅ in
  Ok (sort_by_window <$> final_counter_data).

End Listing.

End Service.

(** ** Sample collaborators

    The path helpers are parameters of the persistence merger.  For closed
    examples they are instantiated with the UTC calendar and with a plain
    join. *)

Module Samples.

(** Days since 1970-01-01 to [(year, month, day)] in the proleptic
    Gregorian calendar, as [datetime.datetime.utcfromtimestamp] computes
    them. *)
Definition civil_from_days (z : Z) : Z * Z * Z :=
  let z := z + 719468 in
  let era := z / 146097 in
  let doe := z - era * 146097 in
  let yoe := (doe - doe / 1460 + doe / 36524 - doe / 146096) / 365 in
  let doy := doe - (365 * yoe + yoe / 4 - yoe / 100) in
  let mp := (5 * doy + 2) / 153 in
  let d := doy - (153 * mp + 2) / 5 + 1 in
  let m := if mp <? 10 then mp + 3 else mp - 9 in
  (yoe + era * 400 + (if m <=? 2 then 1 else 0), m, d).

Definition digit (n : Z) : ascii := ascii_of_nat (48 + Z.to_nat (n mod 10)).

Definition pad2 (n : Z) : string :=
  String (digit (n / 10)) (String (digit n) EmptyString).

Definition pad4 (n : Z) : string :=
  String (digit (n / 1000)) (String (digit (n / 100)) (pad2 n)).

(** One directive of [strftime] at the unix time [t]; the directives other
    than the numeric date and time ones are left as they are. *)
Definition directive (t : Z) (k : ascii) : string :=
  let '(y, m, d) := civil_from_days (t / 86400) in
  let s := t mod 86400 in
  match k with
  | "Y"%char => pad4 y
  | "m"%char => pad2 m
  | "d"%char => pad2 d
  | "H"%char => pad2 (s / 3600)
  | "M"%char => pad2 (s mod 3600 / 60)
  | "S"%char => pad2 (s mod 60)
  | "%"%char => "%"
  | _ => String "%" (String k EmptyString)
  end.

(** [datetime.datetime.utcfromtimestamp(t).strftime(fmt)], for the years
    1900 to 9999. *)
Fixpoint strftime (t : Z) (fmt : string) : string :=
  match fmt with
  | EmptyString => EmptyString
  | String "%" (String k rest) => (directive t k ++ strftime t rest)%string
  | String a rest => String a (strftime t rest)
  end.

(** Modelled from the spec: [utils.safe_join] of [titan.common] is not part
    of this file; the resource key is composed from the base namespace, the
    date, the counter name and the filename, as in the path
    [/_titan/stats/counters/2015/05/15/page/view/data-60s.json]. *)
Definition safe_join (parts : list string) : string :=
  String.concat "/" parts.

End Samples.

(** * Properties *)

(** ** Closed computations on rationals

    Two canonical rationals are equal as soon as their fractions are. *)
Ltac qc_eq := apply Qc_is_canon; vm_compute; reflexivity.
Ltac closed_eq :=
  vm_compute; repeat first [ reflexivity | qc_eq | progress f_equal ].

(** ** Loops and binds *)

Lemma bind_Ok {A B} (m : result A) (f : A → result B) b :
  m ≫= f = Ok b → ∃ a, m = Ok a ∧ f a = Ok b.
Proof. destruct m; [eauto | discriminate]. Qed.

Lemma for_each_app {A S} (body : S → A → result S) xs ys st :
  for_each body (xs ++ ys) st = for_each body xs st ≫= for_each body ys.
Proof.
  revert st. induction xs as [|x xs IH]; simpl; intros st; [done|].
  destruct (body st x); simpl; [apply IH | done].
Qed.

Lemma for_each_cons {A S} (body : S → A → result S) x xs st :
  for_each body (x :: xs) st = body st x ≫= for_each body xs.
Proof. reflexivity. Qed.

Lemma for_each_nil {A S} (body : S → A → result S) st :
  for_each body [] st = Ok st.
Proof. reflexivity. Qed.

Lemma for_each_singleton {A S} (body : S → A → result S) x st :
  for_each body [x] st = body st x.
Proof. simpl. by destruct (body st x). Qed.

Lemma bind_Ok_l {A B} (a : A) (f : A → result B) : Ok a ≫= f = f a.
Proof. reflexivity. Qed.

(** ** Counter names *)

Section Names.

Local Open Scope string_scope.

Lemma append_nil_l (t : string) : "" ++ t = t.
Proof. reflexivity. Qed.

Lemma append_cons_l a (s t : string) : String a s ++ t = String a (s ++ t).
Proof. reflexivity. Qed.

Ltac str_norm := rewrite ?append_nil_l, ?append_cons_l in *.

Lemma contains_char_spec ch s :
  contains_char ch s = true ↔ ∃ s1 s2, s = s1 ++ String ch s2.
Proof.
  induction s as [|a s IH]; simpl.
  - split; [done|]. intros ([|??] & s2 & H); str_norm; discriminate.
  - destruct (Ascii.eqb_spec a ch) as [->|Hne].
    + split; [|done]. intros _. by exists "", s.
    + rewrite IH. split.
      * intros (s1 & s2 & ->). by exists (String a s1), s2.
      * intros ([|b s1] & s2 & H); str_norm; simplify_eq. by exists s1, s2.
Qed.

Lemma startswith_char_spec ch s :
  startswith_char ch s = true ↔ ∃ s', s = String ch s'.
Proof.
  destruct s as [|a s]; simpl.
  - split; [done|]. intros (? & ?); discriminate.
  - destruct (Ascii.eqb_spec a ch) as [->|Hne].
    + split; [|done]. intros _. by exists s.
    + split; [done|]. intros (s' & H). congruence.
Qed.

Lemma endswith_char_spec ch s :
  endswith_char ch s = true ↔ ∃ s', s = s' ++ String ch "".
Proof.
  induction s as [|a s IH].
  - simpl. split; [done|]. intros ([|??] & H); str_norm; discriminate.
  - destruct s as [|b s].
    + simpl. destruct (Ascii.eqb_spec a ch) as [->|Hne].
      * split; [|done]. intros _. by exists "".
      * split; [done|].
        intros ([|c s'] & H); str_norm; simplify_eq.
        destruct s'; str_norm; discriminate.
    + change (endswith_char ch (String a (String b s)))
        with (endswith_char ch (String b s)).
      rewrite IH. split.
      * intros (s' & ->). by exists (String a s').
      * intros ([|c s'] & H); str_norm; simplify_eq. by exists s'.
Qed.

(** The names the specification forbids: the separator [":"] occurs
    somewhere, or the name begins or ends with the delimiter ["/"]. *)
Definition invalid_name (n : string) : Prop :=
  (∃ s1 s2, n = s1 ++ ":" ++ s2) ∨ (∃ s, n = "/" ++ s) ∨ (∃ s, n = s ++ "/").

Definition invalid_nameb (n : string) : bool :=
  contains_char ":" n || startswith_char "/" n || endswith_char "/" n.

Lemma invalid_name_iff n : invalid_name n ↔ invalid_nameb n = true.
Proof.
  unfold invalid_name, invalid_nameb.
  rewrite !orb_true_iff, contains_char_spec, startswith_char_spec,
    endswith_char_spec.
  tauto.
Qed.

(** C9: construction raises [ValueError] exactly for the names that contain
    [":"] or begin or end with ["/"], whatever the counter class; for every
    other name it returns the fresh counter. *)
Theorem init_rejects_exactly_invalid_names k n df fn :
  (invalid_name n → __init__ k n df fn = Raise ValueError) ∧
  (¬ invalid_name n →
   __init__ k n df fn = Ok (mk_counter k n df fn None 0%Qc 0 None)).
Proof.
  rewrite invalid_name_iff. unfold invalid_nameb, __init__.
  destruct (contains_char ":" n), (startswith_char "/" n),
    (endswith_char "/" n); simpl; split; intros H; try done;
    by destruct H.
Qed.

Lemma init_rejects_exactly_invalid_names_witness :
  __init__ Counter "page:view" DATE_FORMAT DATA_FILENAME = Raise ValueError
  ∧ __init__ StaticCounter "page/view/" DATE_FORMAT DATA_FILENAME
    = Raise ValueError
  ∧ __init__ AverageCounter "page/view" DATE_FORMAT DATA_FILENAME
    = Ok (mk_counter AverageCounter "page/view" DATE_FORMAT DATA_FILENAME
                     None 0%Qc 0 None).
Proof.
  split; [|split].
  - apply (proj1 (init_rejects_exactly_invalid_names _ _ _ _)).
    apply invalid_name_iff. reflexivity.
  - apply (proj1 (init_rejects_exactly_invalid_names _ _ _ _)).
    apply invalid_name_iff. reflexivity.
  - apply (proj2 (init_rejects_exactly_invalid_names _ _ _ _)).
    rewrite invalid_name_iff. discriminate.
Defined.

End Names.

(** ** The counter value algebra *)

(** C7: combining a partial observation of weight zero into an averaging
    counter returns the counter as it was: value, weight and every other
    attribute are unchanged. *)
Theorem average_aggregate_zero_weight c v :
  cls c = AverageCounter ∨ cls c = AverageTimingCounter →
  aggregate (PTuple v 0) c = Ok c ∧ aggregate (PList v 0) c = Ok c.
Proof.
  unfold aggregate. by intros [-> | ->].
Qed.

Lemma average_aggregate_zero_weight_witness :
  aggregate (PTuple (Qc_of_Z 9) 0)
    (mk_counter AverageCounter "load" DATE_FORMAT DATA_FILENAME None
                (Qc_of_Z 15) 2 None)
  = Ok (mk_counter AverageCounter "load" DATE_FORMAT DATA_FILENAME None
                   (Qc_of_Z 15) 2 None).
Proof.
  apply (average_aggregate_zero_weight _ (Qc_of_Z 9)). by left.
Defined.

(** A timing counter that observed 1 ms and then 2 ms. *)
Definition timing_1_2 : result counter :=
  c ← new AverageTimingCounter "latency";
  c ← offset (Qc_of_Z 1) c;
  offset (Qc_of_Z 2) c.

(** C4, as stated, fails: the average of 1 and 2 is 3/2, which [finalize]
    turns into 1, while [round] gives 2. *)
Lemma timing_finalize_is_not_round :
  (c ← timing_1_2; finalize c) = Ok (PTuple (Qc_of_Z 1) 2)
  ∧ (c ← timing_1_2;
     Ok (PTuple (Qc_of_Z (py_round (_value c))) (_weight c)))
    = Ok (PTuple (Qc_of_Z 2) 2)
  ∧ PTuple (Qc_of_Z 1) 2 ≠ PTuple (Qc_of_Z 2) 2.
Proof.
  split; [closed_eq | split; [closed_eq | discriminate]].
Qed.

(** C4, amended: [finalize] of a timing counter raises while the counter is
    running, and otherwise returns [(int(value), weight)], the average
    truncated toward zero. *)
Theorem timing_finalize_truncates c :
  cls c = AverageTimingCounter →
  finalize c =
    match _start c with
    | Some _ => Raise AssertionError
    | None => Ok (PTuple (Qc_of_Z (py_int (_value c))) (_weight c))
    end.
Proof.
  intros Hc. unfold finalize, AverageTimingCounter_finalize. rewrite Hc.
  by destruct (_start c).
Qed.

Lemma timing_finalize_truncates_witness :
  finalize (mk_counter AverageTimingCounter "latency" DATE_FORMAT
                       DATA_FILENAME None (Q2Qc (7 # 4)) 4 None)
  = Ok (PTuple (Qc_of_Z (py_int (Q2Qc (7 # 4)))) 4)
  ∧ finalize (mk_counter AverageTimingCounter "latency" DATE_FORMAT
                         DATA_FILENAME None 0%Qc 0 (Some 0%Qc))
    = Raise AssertionError.
Proof.
  split.
  - exact (timing_finalize_truncates
             (mk_counter AverageTimingCounter "latency" DATE_FORMAT
                         DATA_FILENAME None (Q2Qc (7 # 4)) 4 None) eq_refl).
  - exact (timing_finalize_truncates
             (mk_counter AverageTimingCounter "latency" DATE_FORMAT
                         DATA_FILENAME None 0%Qc 0 (Some 0%Qc)) eq_refl).
Defined.

(** C10: a static counter inherits [increment] and [offset] from [Counter],
    so both add to the stored value; only [aggregate] replaces it.  After
    [offset(3)] and [offset(4)] a fresh static counter finalizes to 7; after
    [aggregate(3)] and [aggregate(4)] it finalizes to 4. *)
Theorem static_counter_offset_adds c v :
  cls c = StaticCounter →
  increment c = Ok (set_value (_value c + 1)%Qc c)
  ∧ offset v c = Ok (set_value (_value c + v)%Qc c)
  ∧ aggregate (PNum v) c = Ok (set_value v c)
  ∧ (c0 ← new StaticCounter "a"; c1 ← offset (Qc_of_Z 3) c0;
     c2 ← offset (Qc_of_Z 4) c1; finalize c2) = Ok (PNum (Qc_of_Z 7))
  ∧ (c0 ← new StaticCounter "a"; c1 ← aggregate (PNum (Qc_of_Z 3)) c0;
     c2 ← aggregate (PNum (Qc_of_Z 4)) c1; finalize c2)
    = Ok (PNum (Qc_of_Z 4)).
Proof.
  intros Hc. unfold increment, offset, aggregate. rewrite Hc.
  repeat split; closed_eq.
Qed.

Lemma static_counter_offset_adds_witness :
  offset (Qc_of_Z 4)
    (mk_counter StaticCounter "a" DATE_FORMAT DATA_FILENAME None
                (Qc_of_Z 3) 0 None)
  = Ok (set_value (Qc_of_Z 3 + Qc_of_Z 4)%Qc
          (mk_counter StaticCounter "a" DATE_FORMAT DATA_FILENAME None
                      (Qc_of_Z 3) 0 None)).
Proof.
  exact (proj1 (proj2 (static_counter_offset_adds
    (mk_counter StaticCounter "a" DATE_FORMAT DATA_FILENAME None
                (Qc_of_Z 3) 0 None) (Qc_of_Z 4) eq_refl))).
Defined.

(** ** The window bucketer *)

Lemma py_int_of_Z z : py_int (Qc_of_Z z) = z.
Proof. unfold py_int. simpl. apply Z.quot_1_r. Qed.


Lemma Qc_of_Z_nonzero n : n ≠ 0 → Qc_of_Z n ≠ 0%Qc.
Proof. intros Hn. rewrite <- Z2Qc_inj_0. by intros ?%Z2Qc_inj. Qed.


(** With a whole window size the window is that size times the rounded
    quotient. *)
Lemma get_window_whole_size t n :
  n ≠ 0 →
  _get_window t (Qc_of_Z n) = Ok (n * py_round (t / Qc_of_Z n)%Qc).
Proof.
  intros Hn. unfold _get_window.
  rewrite bool_decide_eq_false_2 by by apply Qc_of_Z_nonzero.
  by rewrite <- Z2Qc_inj_mul, py_int_of_Z.
Qed.




(** ** The per-request aggregator *)

Section Request.

Import RequestProcessor.

Implicit Types (h : heap) (p : _RequestProcessor) (l : loc) (ls : list loc).







(** Two plain counters named ["a"], holding 3 and 4, with no timestamp. *)
Definition two_counters_a : heap :=
  λ l, match l with
       | O => mk_counter Counter "a" DATE_FORMAT DATA_FILENAME None
                         (Qc_of_Z 3) 0 None
       | _ => mk_counter Counter "a" DATE_FORMAT DATA_FILENAME None
                         (Qc_of_Z 4) 0 None
       end.

(** The same, the second one backdated to the timestamp 3600. *)
Definition two_counters_a_backdated : heap :=
  λ l, match l with
       | O => two_counters_a O
       | _ => set_timestamp (Some 3600) (two_counters_a 1%nat)
       end.

(** A processor created when [time.time()] was 89. *)
Definition processor_at_89 : _RequestProcessor :=
  mk_RequestProcessor (λ _, []) [] ∅ ∅ 60.


(** The two examples of the specification, run through [process]. *)
Example process_two_plain_counters :
  (r ← process [0%nat; 1%nat] two_counters_a processor_at_89;
   v ← finalize (r.1 0%nat);
   Ok (final_counters r.2, v,
       window_counter_data r.2 !! 60 ≫= λ d, counters d !! "a"))
  = Ok ([0%nat], PNum (Qc_of_Z 7), Some (PNum (Qc_of_Z 7))).
Proof. closed_eq. Qed.

Example process_backdated_counter :
  (r ← process [0%nat; 1%nat] two_counters_a_backdated processor_at_89;
   Ok (final_counters r.2,
       window_counter_data r.2 !! 60 ≫= (λ d, counters d !! "a"),
       window_counter_data r.2 !! 3600 ≫= (λ d, counters d !! "a")))
  = Ok ([0%nat; 1%nat], Some (PNum (Qc_of_Z 3)), Some (PNum (Qc_of_Z 4))).
Proof. closed_eq. Qed.

(** *** Filing into windows *)

(** The value filed under a window and a name. *)
Definition filed (wcd : gmap Z window_data) (w : Z) (n : string)
    : option pyval :=
  wcd !! w ≫= λ d, counters d !! n.






Example processor_at_89_init :
  __init__ (λ _, []) (Qc_of_Z 89) = Ok processor_at_89.
Proof. reflexivity. Qed.




(** The state after [process] on the two counters named ["a"], the second
    one backdated to 3600. *)
Definition backdated_state : heap * _RequestProcessor :=
  Eval vm_compute in
    match process [0%nat; 1%nat] two_counters_a_backdated processor_at_89 with
    | Ok r => r
    | Raise _ => (two_counters_a_backdated, processor_at_89)
    end.


End Request.

(** ** The batch aggregator *)

Section Batch.

Import BatchProcessor.

(** The counters a factory creates, by name; a later counter of a name
    replaces an earlier one. *)
Definition fresh_counters (f : factory) : gmap string counter :=
  foldl (λ m c, <[name c := c]> m) ∅ (f ()).

Lemma init_counters_fold w cs b m s :
  window_counters b !! w = Some m →
  window_counters_available b !! w = Some s →
  let b' :=
    fold_left
      (λ b' c,
         if name_in_window_counters (name c) (window_counters b') then b'
         else set_window_counters
                (alter (insert (name c) c) w (window_counters b')) b')
      cs b in
  window_counters b' !! w = Some (foldl (λ m c, <[name c := c]> m) m cs)
  ∧ window_counters_available b' !! w = Some s.
Proof.
  revert b m. induction cs as [|c cs IH]; simpl; intros b m Hm Hs; [done|].
  apply IH; simpl; [|done]. by rewrite lookup_alter_eq, Hm.
Qed.

(** A factory that declares one plain counter named ["a"]. *)
Definition factory_a : factory :=
  λ _, [mk_counter Counter "a" DATE_FORMAT DATA_FILENAME None 0%Qc 0 None].

(** The record [{'window': 60, 'counters': {'a': v}}]. *)
Definition record_a (v : Z) : window_data :=
  mk_window_data 60 {[ "a" := PNum (Qc_of_Z v) ]}.

(** The finalized value of the live counter of a window and a name. *)
Definition live_value (b : _BatchProcessor) (w : Z) (n : string)
    : result pyval :=
  match window_counters b !! w ≫= (.!! n) with
  | Some c => Counters.finalize c
  | None => Raise KeyError
  end.

Lemma init_counters_window w b :
  window_counters (_init_counters w b) !! w
  = Some (fresh_counters (counters_func b))
  ∧ window_counters_available (_init_counters w b) !! w = Some ∅.
Proof.
  unfold _init_counters, fresh_counters.
  eapply (init_counters_fold w _ _ ∅ ∅); simpl; apply lookup_insert_eq.
Qed.

(** Two batch processors hold the same for the window [w]. *)
Definition same_at (w : Z) (b1 b2 : _BatchProcessor) : Prop :=
  window_counters b1 !! w = window_counters b2 !! w
  ∧ window_counters_available b1 !! w = window_counters_available b2 !! w.

(** Two runs end alike for the window [w]: both raise the same exception,
    or both return and hold the same for [w]. *)
Definition alike_at (w : Z) (r1 r2 : result _BatchProcessor) : Prop :=
  match r1, r2 with
  | Ok b1, Ok b2 => same_at w b1 b2
  | Raise e1, Raise e2 => e1 = e2
  | _, _ => False
  end.

Lemma aggregate_one_same_at w b1 b2 item :
  same_at w b1 b2 →
  alike_at w (aggregate_one w b1 item) (aggregate_one w b2 item).
Proof.
  intros [Hc Ha]. destruct item as [n v]. unfold aggregate_one.
  rewrite <- Hc.
  destruct (window_counters b1 !! w ≫= (.!! n)) as [c|]; [|by split].
  destruct (aggregate v c) as [c'|e]; simpl; [|done].
  split; simpl.
  - by rewrite !lookup_alter_eq, Hc.
  - by rewrite !lookup_alter_eq, Ha.
Qed.

Lemma for_each_aggregate_same_at w items b1 b2 :
  same_at w b1 b2 →
  alike_at w (for_each (aggregate_one w) items b1)
             (for_each (aggregate_one w) items b2).
Proof.
  revert b1 b2. induction items as [|item items IH]; intros b1 b2 H; [done|].
  rewrite !for_each_cons.
  pose proof (aggregate_one_same_at w b1 b2 item H) as H1.
  destruct (aggregate_one w b1 item) as [b1'|e1],
           (aggregate_one w b2 item) as [b2'|e2]; try done.
  by apply IH.
Qed.

(** C1 does not hold of the code: [_init_counters] runs the factory on
    every call and replaces whatever the window held, so that the counters
    of an already seen window are the fresh ones of the factory and its
    touched set is empty.  What one record leaves for its window therefore
    does not depend on what the batch held before.  Two records for window
    60 that carry 3 and 4 for ["a"] leave the live counter at 4, where
    accumulation gives 7. *)
Theorem init_counters_reinitialises_seen_window
    f wc1 av1 log1 wc2 av2 log2 w data :
  window_counters (_init_counters w (mk_BatchProcessor f wc1 av1 log1)) !! w
  = Some (fresh_counters f)
  ∧ window_counters_available
      (_init_counters w (mk_BatchProcessor f wc1 av1 log1)) !! w = Some ∅
  ∧ alike_at (window data)
      (process_one (mk_BatchProcessor f wc1 av1 log1) data)
      (process_one (mk_BatchProcessor f wc2 av2 log2) data)
  ∧ (b1 ← process [record_a 3] (__init__ factory_a);
     b2 ← process [record_a 4] b1;
     live_value b2 60 "a") = Ok (PNum (Qc_of_Z 4))
  ∧ (b1 ← process [record_a 3] (__init__ factory_a);
     live_value b1 60 "a") = Ok (PNum (Qc_of_Z 3)).
Proof.
  split; [|split; [|split; [|split]]]; [..|closed_eq|closed_eq].
  - apply (init_counters_window w (mk_BatchProcessor f wc1 av1 log1)).
  - apply (init_counters_window w (mk_BatchProcessor f wc1 av1 log1)).
  - unfold process_one. apply for_each_aggregate_same_at.
    destruct (init_counters_window (window data)
                (mk_BatchProcessor f wc1 av1 log1)) as [H1 H1'].
    destruct (init_counters_window (window data)
                (mk_BatchProcessor f wc2 av2 log2)) as [H2 H2'].
    split; [by rewrite H1, H2 | by rewrite H1', H2'].
Qed.

End Batch.

(** ** The persistence merger *)

Section Merge.

Import Persistence.

Implicit Types (s old pre post : series) (c : counter) (w : Z) (e : Z * pyval).

Definition ascending s : Prop := StronglySorted (λ a b, a.1 < b.1) s.

Definition values_at w s : list pyval := (filter (λ e, e.1 = w) s).*2.

(** *** Sorting *)

Lemma insert_by_window_perm e s : insert_by_window e s ≡ₚ e :: s.
Proof.
  induction s as [|e' s IH]; simpl; [done|].
  destruct (e.1 <=? e'.1); [done|]. rewrite IH. apply Permutation_swap.
Qed.

Lemma sort_by_window_perm s : sort_by_window s ≡ₚ s.
Proof.
  induction s as [|e s IH]; simpl; [done|].
  by rewrite insert_by_window_perm, IH.
Qed.

Lemma sort_by_window_ascending s : ascending s → sort_by_window s = s.
Proof.
  induction 1 as [|e s Hs IH He]; simpl; [done|].
  rewrite IH. destruct He as [|e' s' He' _]; simpl; [done|].
  rewrite (proj2 (Z.leb_le _ _)); [done | lia].
Qed.

Lemma ascending_insert pre post w v :
  ascending pre → ascending post →
  Forall (λ e, e.1 < w) pre → Forall (λ e, w < e.1) post →
  ascending (pre ++ (w, v) :: post).
Proof.
  intros Hpre Hpost Hlt Hgt. apply StronglySorted_app_2; [|done|].
  - intros e1 e2 H1 [->|H2]%elem_of_cons.
    + by apply (proj1 (Forall_forall _ _) Hlt).
    + apply (proj1 (Forall_forall _ _) Hlt) in H1.
      apply (proj1 (Forall_forall _ _) Hgt) in H2. simpl in *. lia.
  - by constructor.
Qed.

Lemma ascending_split w s :
  ascending s →
  ∃ pre post,
    ascending pre ∧ ascending post
    ∧ Forall (λ e, e.1 < w) pre ∧ Forall (λ e, w < e.1) post
    ∧ (s = pre ++ post ∨ ∃ x, s = pre ++ (w, x) :: post).
Proof.
  induction 1 as [|e s Hs IH He].
  - exists [], []. split_and!; [constructor.. | by left].
  - destruct (Z.lt_trichotomy e.1 w) as [Hlt | [Heq | Hgt]].
    + destruct IH as (pre & post & Hpre & Hpost & Hl & Hg & Hsplit).
      exists (e :: pre), post. split_and!; [|done|by constructor|done|].
      * constructor; [done|].
        destruct Hsplit as [-> | [x ->]];
          apply Forall_app in He as [He _]; done.
      * destruct Hsplit as [-> | [x ->]]; [by left | right; by exists x].
    + exists [], s. split_and!; [constructor|done|constructor| |].
      * eapply Forall_impl; [exact He|]. simpl. intros; lia.
      * right. exists e.2. simpl. destruct e; simpl in *. by subst.
    + exists [], (e :: s). split_and!; [constructor| |constructor| |by left].
      * by constructor.
      * constructor; [done|].
        eapply Forall_impl; [exact He|]. simpl. intros; lia.
Qed.

Lemma values_at_app w s1 s2 :
  values_at w (s1 ++ s2) = values_at w s1 ++ values_at w s2.
Proof. unfold values_at. by rewrite filter_app, fmap_app. Qed.

Lemma values_at_none w s :
  Forall (λ e, e.1 ≠ w) s → values_at w s = [].
Proof.
  unfold values_at. induction 1 as [|e s He _ IH]; [done|].
  by rewrite filter_cons_False.
Qed.

Lemma values_at_cons w e s :
  values_at w (e :: s)
  = if decide (e.1 = w) then e.2 :: values_at w s else values_at w s.
Proof.
  unfold values_at. destruct (decide (e.1 = w)).
  - by rewrite filter_cons_True.
  - by rewrite filter_cons_False.
Qed.

Lemma values_at_split w v pre post :
  Forall (λ e, e.1 < w) pre → Forall (λ e, w < e.1) post →
  values_at w (pre ++ (w, v) :: post) = [v].
Proof.
  intros Hl Hg. rewrite values_at_app, values_at_cons. simpl.
  rewrite decide_True by done.
  rewrite !values_at_none; [done| |];
    (eapply Forall_impl; [eassumption|]; simpl; intros; lia).
Qed.

Lemma values_at_absent w pre post :
  Forall (λ e, e.1 < w) pre → Forall (λ e, w < e.1) post →
  values_at w (pre ++ post) = [].
Proof.
  intros Hl Hg. rewrite values_at_app.
  rewrite !values_at_none; [done| |];
    (eapply Forall_impl; [eassumption|]; simpl; intros; lia).
Qed.

(** *** The loop over the old content *)

Lemma merge_step_other w ex ct c e :
  e.1 ≠ w → ex = true ∨ e.1 < w →
  merge_step w (ex, ct, c) e = Ok (ex, ct ++ [e], c).
Proof.
  intros Hne Hor. destruct e as [ow ov]. simpl in *. unfold merge_step.
  assert ((w <? ow) && negb ex = false) as ->.
  { destruct Hor as [-> | Hlt]; [apply andb_false_r|].
    by rewrite (proj2 (Z.ltb_ge _ _)) by lia. }
  simpl. by rewrite (proj2 (Z.eqb_neq _ _)) by done.
Qed.

Lemma merge_loop_before w ex ct c s :
  Forall (λ e, e.1 < w) s →
  for_each (merge_step w) s (ex, ct, c) = Ok (ex, ct ++ s, c).
Proof.
  intros Hs. revert ct. induction Hs as [|e s He _ IH]; intros ct.
  - by rewrite for_each_nil, app_nil_r.
  - rewrite for_each_cons, merge_step_other by (auto; lia).
    by rewrite bind_Ok_l, IH, <- app_assoc.
Qed.

Lemma merge_loop_after w ct c s :
  Forall (λ e, w < e.1) s →
  for_each (merge_step w) s (true, ct, c) = Ok (true, ct ++ s, c).
Proof.
  intros Hs. revert ct. induction Hs as [|e s He _ IH]; intros ct.
  - by rewrite for_each_nil, app_nil_r.
  - rewrite for_each_cons, merge_step_other by (auto; lia).
    by rewrite bind_Ok_l, IH, <- app_assoc.
Qed.

Lemma merge_step_insert w ct c v ow ov :
  w < ow → finalize c = Ok v →
  merge_step w (false, ct, c) (ow, ov)
  = Ok (true, (ct ++ [(w, v)]) ++ [(ow, ov)], c).
Proof.
  intros Ho Hv. unfold merge_step.
  rewrite (proj2 (Z.ltb_lt _ _)) by done. simpl. rewrite Hv. simpl.
  by rewrite (proj2 (Z.eqb_neq _ _)) by lia.
Qed.

Lemma merge_step_match w ex ct c v x :
  finalize c = Ok v →
  merge_step w (ex, ct, c) (w, x)
  = if decide (x = v) then Ok (true, ct ++ [(w, x)], c)
    else
      c' ← (if negb (overwrite c) then aggregate x c else Ok c);
      v' ← finalize c';
      Ok (true, ct ++ [(w, v')], c').
Proof.
  intros Hv. unfold merge_step.
  rewrite Z.ltb_irrefl, Z.eqb_refl. simpl. rewrite Hv. simpl.
  destruct (decide (x = v)) as [->|Hne].
  - by rewrite bool_decide_eq_false_2 by (by intros ?).
  - rewrite bool_decide_eq_true_2 by done.
    destruct (if negb (overwrite c) then aggregate x c else Ok c)
      as [c'|]; simpl; [|done].
    by destruct (finalize c').
Qed.

Lemma merge_window_absent w c v pre post :
  Forall (λ e, e.1 < w) pre → Forall (λ e, w < e.1) post →
  finalize c = Ok v →
  merge_window w c (pre ++ post)
  = Ok (sort_by_window (pre ++ (w, v) :: post), c).
Proof.
  intros Hl Hg Hv. unfold merge_window.
  rewrite for_each_app, merge_loop_before, bind_Ok_l by done.
  destruct Hg as [|[ow ov] post Ho Hg].
  - rewrite for_each_nil, bind_Ok_l. simpl. by rewrite Hv.
  - rewrite for_each_cons, (merge_step_insert _ _ _ v), bind_Ok_l by done.
    rewrite merge_loop_after, bind_Ok_l by done. simpl.
    by rewrite <- !app_assoc.
Qed.

Lemma merge_window_present w c v x pre post :
  Forall (λ e, e.1 < w) pre → Forall (λ e, w < e.1) post →
  finalize c = Ok v →
  merge_window w c (pre ++ (w, x) :: post)
  = if decide (x = v) then Ok (sort_by_window (pre ++ (w, x) :: post), c)
    else
      c' ← (if negb (overwrite c) then aggregate x c else Ok c);
      v' ← finalize c';
      Ok (sort_by_window (pre ++ (w, v') :: post), c').
Proof.
  intros Hl Hg Hv. unfold merge_window.
  rewrite for_each_app, merge_loop_before, bind_Ok_l by done.
  rewrite for_each_cons, (merge_step_match _ _ _ _ v) by done.
  destruct (decide (x = v)) as [->|Hne].
  - rewrite bind_Ok_l, merge_loop_after, bind_Ok_l by done. simpl.
    by rewrite <- !app_assoc.
  - destruct (if negb (overwrite c) then aggregate x c else Ok c)
      as [c'|]; simpl; [|done].
    destruct (finalize c') as [v'|]; simpl; [|done].
    rewrite merge_loop_after by done. simpl. by rewrite <- !app_assoc.
Qed.

(** *** A static counter against any series *)

Lemma merge_step_static w ex ct c ow ov :
  cls c = StaticCounter →
  merge_step w (ex, ct, c) (ow, ov)
  = Ok (ex || (w <? ow) || (ow =? w),
        (ct ++ (if (w <? ow) && negb ex then [(w, PNum (_value c))] else []))
        ++ [(ow, if ow =? w then PNum (_value c) else ov)],
        c).
Proof.
  intros Hc. unfold merge_step, finalize, overwrite. rewrite Hc.
  unfold Counter_finalize.
  destruct (w <? ow), ex, (ow =? w); simpl;
    rewrite ?app_nil_r; try done;
    (case_bool_decide as Hv;
     [by rewrite ?Hc | by rewrite Hv]).
Qed.

Lemma merge_loop_static w c s ex ct :
  cls c = StaticCounter →
  Forall (λ e, e.1 = w → e.2 = PNum (_value c)) ct →
  (ex = true → w ∈ ct.*1) →
  ∃ ex' ct',
    for_each (merge_step w) s (ex, ct, c) = Ok (ex', ct', c)
    ∧ Forall (λ e, e.1 = w → e.2 = PNum (_value c)) ct'
    ∧ (ex' = true → w ∈ ct'.*1).
Proof.
  intros Hc. revert ex ct. induction s as [|[ow ov] s IH]; intros ex ct Hok Hex.
  - by exists ex, ct.
  - rewrite for_each_cons, merge_step_static, bind_Ok_l by done.
    apply IH.
    + apply Forall_app. split; [apply Forall_app; split; [done|]|].
      * destruct ((w <? ow) && negb ex); by repeat constructor.
      * repeat constructor. simpl. intros ->. by rewrite Z.eqb_refl.
    + intros Hex'. rewrite !fmap_app, !elem_of_app.
      destruct ex; [left; left; by apply Hex|].
      destruct (w <? ow) eqn:Hlt; simpl in *.
      * left; right. by left.
      * right. apply Z.eqb_eq in Hex' as ->. by left.
Qed.

Lemma merge_window_static w c old :
  cls c = StaticCounter →
  ∃ ct, merge_window w c old = Ok (ct, c)
        ∧ w ∈ ct.*1
        ∧ Forall (λ e, e.1 = w → e.2 = PNum (_value c)) ct.
Proof.
  intros Hc. unfold merge_window.
  destruct (merge_loop_static w c old false [] Hc) as (ex & ct & -> & Hok & Hex);
    [constructor | done |].
  rewrite bind_Ok_l. unfold finalize. rewrite Hc. unfold Counter_finalize.
  destruct ex; simpl.
  - eexists. split; [done|]. rewrite sort_by_window_perm. auto.
  - eexists. split; [done|]. rewrite sort_by_window_perm. split.
    + rewrite fmap_app, elem_of_app. right. by left.
    + apply Forall_app. split; [done|]. by repeat constructor.
Qed.

(** *** A plain counter against an ascending series *)

Lemma merge_window_sum_absent w c pre post :
  cls c = Counter →
  ascending pre → ascending post →
  Forall (λ e, e.1 < w) pre → Forall (λ e, w < e.1) post →
  merge_window w c (pre ++ post)
  = Ok (pre ++ (w, PNum (_value c)) :: post, c).
Proof.
  intros Hc Hpre Hpost Hl Hg.
  rewrite (merge_window_absent w c (PNum (_value c))) by
    (try done; unfold finalize; by rewrite Hc).
  by rewrite sort_by_window_ascending by by apply ascending_insert.
Qed.

Lemma merge_window_sum_same w c pre post :
  cls c = Counter →
  ascending pre → ascending post →
  Forall (λ e, e.1 < w) pre → Forall (λ e, w < e.1) post →
  merge_window w c (pre ++ (w, PNum (_value c)) :: post)
  = Ok (pre ++ (w, PNum (_value c)) :: post, c).
Proof.
  intros Hc Hpre Hpost Hl Hg.
  rewrite (merge_window_present w c (PNum (_value c))) by
    (try done; unfold finalize; by rewrite Hc).
  rewrite decide_True by done.
  by rewrite sort_by_window_ascending by by apply ascending_insert.
Qed.

Lemma merge_window_sum_diff w c u pre post :
  cls c = Counter →
  u ≠ _value c →
  ascending pre → ascending post →
  Forall (λ e, e.1 < w) pre → Forall (λ e, w < e.1) post →
  merge_window w c (pre ++ (w, PNum u) :: post)
  = Ok (pre ++ (w, PNum (_value c + u)%Qc) :: post,
        set_value (_value c + u)%Qc c).
Proof.
  intros Hc Hu Hpre Hpost Hl Hg.
  rewrite (merge_window_present w c (PNum (_value c))) by
    (try done; unfold finalize; by rewrite Hc).
  rewrite decide_False by congruence.
  unfold overwrite, aggregate, finalize. rewrite Hc. simpl.
  unfold offset, Counter_offset. rewrite Hc, bind_Ok_l.
  change (cls (set_value _ c)) with (cls c). rewrite Hc.
  unfold Counter_finalize. rewrite bind_Ok_l.
  by rewrite sort_by_window_ascending by by apply ascending_insert.
Qed.

(** *** Series after a trip through JSON *)

Definition json_series (s : series) : series :=
  prod_map id json_roundtrip <$> s.

Lemma json_series_app s1 s2 :
  json_series (s1 ++ s2) = json_series s1 ++ json_series s2.
Proof. apply fmap_app. Qed.

Lemma json_series_cons_num w x s :
  json_series ((w, PNum x) :: s) = (w, PNum x) :: json_series s.
Proof. reflexivity. Qed.

Lemma json_series_Forall (P : Z → Prop) s :
  Forall (λ e, P e.1) s → Forall (λ e, P e.1) (json_series s).
Proof.
  intros H. apply Forall_fmap. eapply Forall_impl; [exact H|].
  by intros [??].
Qed.

Lemma json_series_ascending s : ascending s → ascending (json_series s).
Proof.
  induction 1 as [|e s Hs IH He]; [constructor|].
  change (json_series (e :: s))
    with (prod_map id json_roundtrip e :: json_series s).
  constructor; [done|].
  apply Forall_fmap. eapply Forall_impl; [exact He|]. by intros [??].
Qed.

Lemma json_series_keys s : (json_series s).*1 = s.*1.
Proof.
  induction s as [|[w x] s IH]; [done|].
  change ((json_series ((w, x) :: s)).*1) with (w :: (json_series s).*1).
  by rewrite IH.
Qed.

Lemma json_series_idemp s : json_series (json_series s) = json_series s.
Proof.
  unfold json_series. rewrite <- list_fmap_compose. apply list_fmap_ext.
  by intros _ [w [x|x k|x k]] _.
Qed.

(** *** One counter and one window against the store *)

Section Store.

Variable strftime : Z → string → string.
Variable safe_join : list string → string.

Local Abbreviation path := (_make_log_path strftime safe_join).
Local Abbreviation save w n c :=
  (_save_aggregate_data strftime safe_join [mk_aggregate_data {[n := c]} w]).

Lemma save_single w n c st :
  save w n c st
  = ('(ct, _) ← merge_window w c (read_content st (path w c));
     Ok (<[path w c :=
             mk_stored_file (json_series ct) n (day_start w)]> st)).
Proof.
  unfold _save_aggregate_data.
  rewrite for_each_singleton. unfold save_aggregate. simpl.
  rewrite map_to_list_singleton, for_each_singleton.
  unfold save_counter. rewrite lookup_empty. simpl.
  destruct (merge_window w c (read_content st (path w c))) as [[ct c']|];
    simpl; [|done].
  unfold write_files. rewrite insert_empty, map_to_list_singleton. done.
Qed.

Lemma read_content_insert (st : gmap string stored_file) p s n d :
  read_content (<[p := mk_stored_file s n d]> st) p = s.
Proof. unfold read_content. by rewrite lookup_insert_eq. Qed.

Lemma bind_merge_Ok {B} ct c (f : series → result B) :
  (Ok (ct, c) ≫= λ '(ct', _), f ct') = f ct.
Proof. reflexivity. Qed.

Lemma path_same_attributes w c1 c2 :
  name c2 = name c1 → date_format c2 = date_format c1 →
  data_filename c2 = data_filename c1 →
  path w c2 = path w c1.
Proof. unfold _make_log_path. by intros -> -> ->. Qed.

(** C6: persisting a static counter for a window and then, for the same
    counter and window, a second static value leaves the stored series with
    an entry for that window, and every entry it has for that window holds
    the second value, whatever the first value and the series were. *)
Theorem static_merge_last_write_wins st w n c1 c2 :
  cls c1 = StaticCounter → cls c2 = StaticCounter →
  name c2 = name c1 → date_format c2 = date_format c1 →
  data_filename c2 = data_filename c1 →
  ∃ st1 st2,
    save w n c1 st = Ok st1
    ∧ save w n c2 st1 = Ok st2
    ∧ w ∈ (read_content st2 (path w c1)).*1
    ∧ ∀ x, (w, x) ∈ read_content st2 (path w c1) → x = PNum (_value c2).
Proof.
  intros Hc1 Hc2 Hn Hd Hf.
  pose proof (path_same_attributes w c1 c2 Hn Hd Hf) as Hp.
  destruct (merge_window_static w c1 (read_content st (path w c1)) Hc1)
    as (ct1 & Hm1 & _ & _).
  set (st1 := <[path w c1 :=
                  mk_stored_file (json_series ct1) n (day_start w)]> st).
  destruct (merge_window_static w c2 (read_content st1 (path w c2)) Hc2)
    as (ct2 & Hm2 & Hin & Hall).
  exists st1, (<[path w c2 :=
                  mk_stored_file (json_series ct2) n (day_start w)]> st1).
  split; [by rewrite save_single, Hm1|].
  split; [by rewrite save_single, Hm2|].
  rewrite <- Hp, read_content_insert. split.
  - by rewrite json_series_keys.
  - intros x ((w' & y) & [= -> ->] & Hy)%list_elem_of_fmap. simpl.
    pose proof (proj1 (Forall_forall _ _) Hall _ Hy eq_refl) as Hv.
    simpl in Hv. by rewrite Hv.
Qed.

(** C2, amended: persisting a plain counter of value [v] for a window
    folds [v] into the stored entry of that window only when the entry
    differs from [v].  Against an ascending series without an entry for the
    window the first merge stores [v] and a second merge of the same value
    leaves the store as it is (the stored value stays [v], it is not
    doubled).  Against an entry [u] other than [v] the merge stores
    [v + u], and, when [u] is not zero, a second merge of [v] stores
    [v + (v + u)]. *)
Theorem sum_merge_ignores_equal_value st w n c u :
  cls c = Counter →
  ascending (read_content st (path w c)) →
  (values_at w (read_content st (path w c)) = [] →
   ∃ st1,
     save w n c st = Ok st1
     ∧ save w n c st1 = Ok st1
     ∧ values_at w (read_content st1 (path w c)) = [PNum (_value c)])
  ∧ (values_at w (read_content st (path w c)) = [PNum u] →
     u ≠ _value c →
     ∃ st1,
       save w n c st = Ok st1
       ∧ values_at w (read_content st1 (path w c))
         = [PNum (_value c + u)%Qc]
       ∧ (u ≠ 0%Qc →
          ∃ st2,
            save w n c st1 = Ok st2
            ∧ values_at w (read_content st2 (path w c))
              = [PNum (_value c + (_value c + u))%Qc])).
Proof.
  intros Hc Hasc.
  destruct (ascending_split w _ Hasc)
    as (pre & post & Hpre & Hpost & Hl & Hg & Hs).
  pose proof (json_series_ascending _ Hpre) as Hpre'.
  pose proof (json_series_ascending _ Hpost) as Hpost'.
  pose proof (json_series_Forall (λ k, k < w) _ Hl) as Hl'.
  pose proof (json_series_Forall (λ k, w < k) _ Hg) as Hg'.
  cbv beta in Hl', Hg'.
  split.
  - intros Hv. destruct Hs as [Hs | [x Hs]]; rewrite Hs in Hv;
      [|by rewrite values_at_split in Hv].
    assert (json_series
              (json_series pre ++ (w, PNum (_value c)) :: json_series post)
            = json_series pre ++ (w, PNum (_value c)) :: json_series post)
      as Hs1.
    { by rewrite json_series_app, json_series_cons_num, !json_series_idemp. }
    exists (<[path w c :=
                mk_stored_file
                  (json_series pre ++ (w, PNum (_value c)) :: json_series post)
                  n (day_start w)]> st).
    split; [|split].
    + rewrite save_single, Hs, merge_window_sum_absent by done.
      by rewrite bind_merge_Ok, json_series_app, json_series_cons_num.
    + rewrite save_single, read_content_insert.
      rewrite merge_window_sum_same by done.
      by rewrite bind_merge_Ok, Hs1, insert_insert_eq.
    + rewrite read_content_insert. by apply values_at_split.
  - intros Hv Hu. destruct Hs as [Hs | [x Hs]]; rewrite Hs in Hv;
      [by rewrite values_at_absent in Hv|].
    rewrite values_at_split in Hv by done. injection Hv as ->.
    exists (<[path w c :=
                mk_stored_file
                  (json_series pre
                   ++ (w, PNum (_value c + u)%Qc) :: json_series post)
                  n (day_start w)]> st).
    split; [|split].
    + rewrite save_single, Hs, merge_window_sum_diff by done.
      by rewrite bind_merge_Ok, json_series_app, json_series_cons_num.
    + rewrite read_content_insert. by apply values_at_split.
    + intros Hu0.
      assert ((_value c + u)%Qc ≠ _value c) as Hne.
      { intros H. apply Hu0.
        replace u with ((_value c + u) - _value c)%Qc by ring.
        rewrite H. ring. }
      eexists. rewrite save_single, read_content_insert.
      rewrite merge_window_sum_diff by done.
      rewrite bind_merge_Ok. split; [done|].
      rewrite read_content_insert, json_series_app, json_series_cons_num.
      rewrite !json_series_idemp. by apply values_at_split.
Qed.

End Store.

End Merge.

(** *** Closed runs, with the sample collaborators *)

Section Runs.

Import Persistence.

(** The counter named ["c"] of class [k] holding [v]. *)
Definition counter_c (k : counter_class) (v : Z) : counter :=
  mk_counter k "c" DATE_FORMAT DATA_FILENAME None (Qc_of_Z v) 0 None.

(** Persisting [counter_c k v] for the window [w]. *)
Definition save_c (k : counter_class) (w v : Z)
    (st : gmap string stored_file) : result (gmap string stored_file) :=
  _save_aggregate_data Samples.strftime Samples.safe_join
    [mk_aggregate_data {[ "c" := counter_c k v ]} w] st.

(** The file of ["c"] for the first of January 1970. *)
Definition path_c : string :=
  "/_titan/stats/counters/1970/01/01/c/data-60s.json".

(** A store whose file of ["c"] holds 3 for the window 60. *)
Definition store_c_3 : gmap string stored_file :=
  {[ path_c := mk_stored_file [(60, PNum (Qc_of_Z 3))] "c" 0 ]}.

Example make_log_path_c :
  _make_log_path Samples.strftime Samples.safe_join 60 (counter_c Counter 5)
  = path_c.
Proof. reflexivity. Qed.

(** C2, as stated, fails: persisting the value 5 twice for the window 60,
    starting from an empty store, stores 5 the first time and leaves 5 the
    second time, not 10. *)
Lemma sum_merged_twice_is_not_doubled :
  (st1 ← save_c Counter 60 5 ∅; Ok (read_content st1 path_c))
  = Ok [(60, PNum (Qc_of_Z 5))]
  ∧ (st1 ← save_c Counter 60 5 ∅;
     st2 ← save_c Counter 60 5 st1;
     Ok (read_content st2 path_c))
    = Ok [(60, PNum (Qc_of_Z 5))]
  ∧ PNum (Qc_of_Z 5) ≠ PNum (Qc_of_Z (2 * 5)).
Proof.
  split; [closed_eq | split; [closed_eq|]].
  by intros [= H%Z2Qc_inj].
Qed.

Lemma sum_merge_ignores_equal_value_witness :
  (∃ st1,
     save_c Counter 60 5 ∅ = Ok st1
     ∧ save_c Counter 60 5 st1 = Ok st1
     ∧ values_at 60
         (read_content st1
            (_make_log_path Samples.strftime Samples.safe_join 60
               (counter_c Counter 5)))
       = [PNum (Qc_of_Z 5)])
  ∧ (∃ st1,
       save_c Counter 60 5 store_c_3 = Ok st1
       ∧ values_at 60
           (read_content st1
              (_make_log_path Samples.strftime Samples.safe_join 60
                 (counter_c Counter 5)))
         = [PNum (Qc_of_Z 5 + Qc_of_Z 3)%Qc]).
Proof.
  split.
  - assert (ascending
              (read_content ∅
                 (_make_log_path Samples.strftime Samples.safe_join 60
                    (counter_c Counter 5)))) as Hasc.
    { vm_compute. constructor. }
    apply (proj1 (sum_merge_ignores_equal_value
                    Samples.strftime Samples.safe_join ∅ 60 "c"
                    (counter_c Counter 5) (Qc_of_Z 3) eq_refl Hasc)).
    reflexivity.
  - assert (ascending
              (read_content store_c_3
                 (_make_log_path Samples.strftime Samples.safe_join 60
                    (counter_c Counter 5)))) as Hasc.
    { vm_compute. repeat constructor. }
    destruct (proj2 (sum_merge_ignores_equal_value
                       Samples.strftime Samples.safe_join store_c_3 60 "c"
                       (counter_c Counter 5) (Qc_of_Z 3) eq_refl Hasc)
                    eq_refl)
      as (st1 & H1 & H2 & _).
    + intros H%Z2Qc_inj. discriminate.
    + exists st1. split; [exact H1 | exact H2].
Defined.

Lemma static_merge_last_write_wins_witness :
  ∃ st1 st2,
    save_c StaticCounter 60 3 ∅ = Ok st1
    ∧ save_c StaticCounter 60 9 st1 = Ok st2
    ∧ 60 ∈ (read_content st2
              (_make_log_path Samples.strftime Samples.safe_join 60
                 (counter_c StaticCounter 3))).*1
    ∧ ∀ x, (60, x) ∈ read_content st2
                       (_make_log_path Samples.strftime Samples.safe_join 60
                          (counter_c StaticCounter 3)) →
           x = PNum (Qc_of_Z 9).
Proof.
  exact (static_merge_last_write_wins Samples.strftime Samples.safe_join
           ∅ 60 "c" (counter_c StaticCounter 3) (counter_c StaticCounter 9)
           eq_refl eq_refl eq_refl eq_refl eq_refl).
Defined.

(** The stored value after the two static writes, computed. *)
Example static_written_twice :
  (st1 ← save_c StaticCounter 60 3 ∅;
   st2 ← save_c StaticCounter 60 9 st1;
   Ok (read_content st2 path_c))
  = Ok [(60, PNum (Qc_of_Z 9))].
Proof. closed_eq. Qed.

(** Persisting window 120 and then window 60 keeps the series ascending. *)
Example series_stays_ascending :
  (st1 ← save_c Counter 120 5 ∅;
   st2 ← save_c Counter 60 3 st1;
   Ok (read_content st2 path_c))
  = Ok [(60, PNum (Qc_of_Z 3)); (120, PNum (Qc_of_Z 5))].
Proof. closed_eq. Qed.

(** A factory that declares ["x"] and ["y"]; only ["x"] receives data, and
    only ["x"] is stored by [finalize]. *)
Example finalize_drops_untouched_counters :
  (b ← BatchProcessor.process
         [mk_window_data 60 {[ "x" := PNum (Qc_of_Z 2) ]}]
         (BatchProcessor.__init__
            (λ _, [mk_counter Counter "x" DATE_FORMAT DATA_FILENAME None
                              0%Qc 0 None;
                   mk_counter Counter "y" DATE_FORMAT DATA_FILENAME None
                              0%Qc 0 None]));
   st ← BatchProcessor.finalize Samples.strftime Samples.safe_join b ∅;
   Ok ((λ kv : string * stored_file,
          (stats_counter_name kv.2, content kv.2)) <$> map_to_list st))
  = Ok [("x", [(60, PNum (Qc_of_Z 2))])].
Proof. closed_eq. Qed.

End Runs.

(** * Further properties *)

(** ** The counters *)

(** *** Counting *)

(** [n] calls of [increment]. *)
Fixpoint increment_times (n : nat) (c : counter) : result counter :=
  match n with
  | O => Ok c
  | S n' => c' ← increment c; increment_times n' c'
  end.

Lemma set_value_set_value x y c : set_value x (set_value y c) = set_value x c.
Proof. reflexivity. Qed.

Lemma set_value_id c : set_value (_value c) c = c.
Proof. by destruct c. Qed.

(** X1: on a plain or a static counter, [n] calls of [increment] are one
    [offset] by [n]: they never raise, and the counter then finalizes to its
    old value plus [n]. *)
Theorem increment_times_is_offset n c :
  cls c = Counter ∨ cls c = StaticCounter →
  increment_times n c = offset (Qc_of_Z (Z.of_nat n)) c
  ∧ (c' ← increment_times n c; finalize c')
    = Ok (PNum (_value c + Qc_of_Z (Z.of_nat n))%Qc).
Proof.
  intros Hc.
  assert (increment_times n c
          = Ok (set_value (_value c + Qc_of_Z (Z.of_nat n))%Qc c)) as Hn.
  { revert c Hc. induction n as [|n IH]; intros c Hc.
    - cbn [increment_times]. change (Z.of_nat 0) with 0.
      rewrite Z2Qc_inj_0, Qcplus_0_r. by rewrite set_value_id.
    - cbn [increment_times]. unfold increment.
      replace (match cls c with
               | AbstractBaseCounter => Raise AttributeError
               | AverageCounter | AverageTimingCounter =>
                   AverageCounter_increment c
               | _ => Counter_increment c
               end) with (Counter_increment c) by (by destruct Hc as [-> | ->]).
      unfold Counter_increment. rewrite bind_Ok_l, IH by done.
      rewrite set_value_set_value. f_equal. f_equal.
      rewrite Nat2Z.inj_succ, <- Z.add_1_l, Z2Qc_inj_add, Z2Qc_inj_1.
      simpl. ring. }
  rewrite Hn. split.
  - unfold offset. by destruct Hc as [-> | ->].
  - rewrite bind_Ok_l. unfold finalize.
    change (cls (set_value _ c)) with (cls c). by destruct Hc as [-> | ->].
Qed.

(** *** Averages *)











(** *** Timing *)



(** *** What the methods leave alone *)

Definition same_identity (c c' : counter) : Prop :=
  cls c' = cls c ∧ name c' = name c ∧ timestamp c' = timestamp c
  ∧ date_format c' = date_format c ∧ data_filename c' = data_filename c.

Lemma average_aggregate_identity v c c' :
  AverageCounter_aggregate v c = Ok c' →
  same_identity c c' ∧ _start c' = _start c.
Proof.
  unfold AverageCounter_aggregate. intros H.
  destruct v as [x|x w|x w]; [done| |];
    (destruct (w =? 0); [by simplify_eq|];
     destruct (_weight c + w =? 0); [done|]; by simplify_eq).
Qed.

Lemma aggregate_identity v c c' :
  aggregate v c = Ok c' → same_identity c c' ∧ _start c' = _start c.
Proof.
  unfold aggregate, Counter_aggregate, StaticCounter_aggregate, offset,
    Counter_offset, AverageCounter_offset.
  destruct (cls c) eqn:Hc; try done;
    try (by apply average_aggregate_identity);
    destruct v; try done; rewrite ?Hc; by intros [= <-].
Qed.

Lemma offset_identity x c c' :
  offset x c = Ok c' → same_identity c c' ∧ _start c' = _start c.
Proof.
  unfold offset, Counter_offset, AverageCounter_offset.
  destruct (cls c) eqn:Hc; try done;
    try (by apply average_aggregate_identity); by intros [= <-].
Qed.

Lemma increment_identity c c' :
  increment c = Ok c' → same_identity c c' ∧ _start c' = _start c.
Proof.
  unfold increment, Counter_increment, AverageCounter_increment.
  destruct (cls c) eqn:Hc; try done;
    try (by apply average_aggregate_identity); by intros [= <-].
Qed.

(** X4: no method that changes a counter ([aggregate], [offset],
    [increment], [start], [stop]) changes its class, name, timestamp, date
    format or file name; hence [overwrite] and the path of its file stay
    the same. *)
Theorem methods_keep_identity strftime safe_join w c c' :
  (∃ v, aggregate v c = Ok c') ∨ (∃ x, offset x c = Ok c')
  ∨ increment c = Ok c' ∨ (∃ t, start t c = Ok c') ∨ (∃ t, stop t c = Ok c') →
  same_identity c c'
  ∧ overwrite c' = overwrite c
  ∧ Persistence._make_log_path strftime safe_join w c'
    = Persistence._make_log_path strftime safe_join w c.
Proof.
  intros H.
  assert (same_identity c c') as Hid.
  { destruct H as [[v H] | [[x H] | [H | [[t H] | [t H]]]]].
    - by apply aggregate_identity in H as [? _].
    - by apply offset_identity in H as [? _].
    - by apply increment_identity in H as [? _].
    - unfold start in H. destruct (cls c); try done.
      apply bind_Ok in H as (? & _ & [= <-]). done.
    - unfold stop in H. destruct (cls c) eqn:Hc; try done.
      destruct (_start c); [|done].
      apply bind_Ok in H as (c1 & H1 & [= <-]).
      apply offset_identity in H1 as [H1 _]. exact H1. }
  split; [done|]. destruct Hid as (Hc & Hn & _ & Hd & Hf). split.
  - unfold overwrite. by rewrite Hc.
  - unfold Persistence._make_log_path. by rewrite Hn, Hd, Hf.
Qed.

(** *** Re-hydration *)

(** X5: a finalized value survives JSON and re-hydration: aggregating
    the JSON form of what a counter finalizes to into a fresh counter of
    the same class gives a counter that finalizes to the same value.  An
    averaging counter of weight zero must hold zero for that, since an
    observation of weight zero is dropped. *)
Theorem finalized_value_rehydrates c v :
  cls c ≠ AbstractBaseCounter →
  (cls c = AverageCounter ∨ cls c = AverageTimingCounter →
   _weight c = 0 → _value c = 0%Qc) →
  finalize c = Ok v →
  ∃ c',
    aggregate (json_roundtrip v)
      (mk_counter (cls c) (name c) (date_format c) (data_filename c)
                  None 0%Qc 0 None) = Ok c'
    ∧ finalize c' = Ok v.
Proof.
  intros Hk Hz Hv. unfold finalize in Hv.
  destruct (cls c) eqn:Hc; try done.
  - (* Counter *)
    injection Hv as <-. eexists. split.
    + unfold aggregate. simpl. unfold offset. simpl. reflexivity.
    + unfold finalize. simpl. by rewrite Qcplus_0_l.
  - (* AverageCounter *)
    injection Hv as <-. unfold aggregate. simpl.
    destruct (_weight c =? 0) eqn:Hw.
    + apply Z.eqb_eq in Hw. eexists. split; [done|].
      unfold finalize. simpl. unfold AverageCounter_finalize. simpl.
      by rewrite Hw, (Hz (or_introl eq_refl) Hw).
    + apply Z.eqb_neq in Hw. rewrite Z.add_0_l.
      rewrite (proj2 (Z.eqb_neq _ 0) Hw).
      eexists. split; [done|]. unfold finalize. simpl.
      unfold AverageCounter_finalize. simpl. f_equal. f_equal.
      apply Qc_of_Z_nonzero in Hw. rewrite Z2Qc_inj_0. by field.
  - (* AverageTimingCounter *)
    unfold AverageTimingCounter_finalize in Hv.
    destruct (_start c); [done|]. simpl in Hv. injection Hv as <-.
    unfold aggregate. simpl.
    destruct (_weight c =? 0) eqn:Hw.
    + apply Z.eqb_eq in Hw. eexists. split; [done|].
      unfold finalize. simpl. rewrite Hw, (Hz (or_intror eq_refl) Hw). reflexivity.
    + apply Z.eqb_neq in Hw. rewrite Z.add_0_l.
      rewrite (proj2 (Z.eqb_neq _ 0) Hw).
      eexists. split; [done|]. unfold finalize. simpl.
      unfold AverageTimingCounter_finalize. simpl. do 3 f_equal.
      apply Qc_of_Z_nonzero in Hw. rewrite Z2Qc_inj_0.
      replace ((0 * 0 + Qc_of_Z (py_int (_value c)) * Qc_of_Z (_weight c))
               / Qc_of_Z (_weight c))%Qc
        with (Qc_of_Z (py_int (_value c))) by by field.
      apply py_int_of_Z.
  - (* StaticCounter *)
    injection Hv as <-. eexists. split; [reflexivity|].
    unfold finalize. simpl. done.
Qed.

(** *** Instances *)

Lemma increment_times_is_offset_witness :
  increment_times 3 (counter_c Counter 5)
  = offset (Qc_of_Z (Z.of_nat 3)) (counter_c Counter 5)
  ∧ (c' ← increment_times 3 (counter_c Counter 5); finalize c')
    = Ok (PNum (_value (counter_c Counter 5) + Qc_of_Z (Z.of_nat 3))%Qc).
Proof. apply (increment_times_is_offset 3 (counter_c Counter 5)). by left. Defined.




Lemma methods_keep_identity_witness :
  same_identity (counter_c Counter 5) (counter_c Counter 6)
  ∧ overwrite (counter_c Counter 6) = overwrite (counter_c Counter 5)
  ∧ Persistence._make_log_path Samples.strftime Samples.safe_join 60
      (counter_c Counter 6)
    = Persistence._make_log_path Samples.strftime Samples.safe_join 60
        (counter_c Counter 5).
Proof.
  apply (methods_keep_identity Samples.strftime Samples.safe_join 60
           (counter_c Counter 5) (counter_c Counter 6)).
  right. right. left. unfold increment, Counter_increment. simpl.
  f_equal. unfold set_value, counter_c. simpl. f_equal. closed_eq.
Defined.

Lemma finalized_value_rehydrates_witness :
  ∃ c',
    aggregate (json_roundtrip (PTuple (Qc_of_Z 15) 2))
      (mk_counter AverageCounter "load" DATE_FORMAT DATA_FILENAME
                  None 0%Qc 0 None) = Ok c'
    ∧ finalize c' = Ok (PTuple (Qc_of_Z 15) 2).
Proof.
  apply (finalized_value_rehydrates
           (mk_counter AverageCounter "load" DATE_FORMAT DATA_FILENAME None
                       (Qc_of_Z 15) 2 None)).
  - discriminate.
  - simpl. intros _ [=].
  - reflexivity.
Defined.

(** ** The window bucketer *)

(** *** Rounding *)

(** [round] is within one half of its argument, and a half goes away from
    zero: on the fraction [num / den]. *)
Lemma py_round_bounds_Z (x : Qc) :
  let num := Qnum x in
  let den := Z.pos (Qden x) in
  let r := py_round x in
  (2 * r - 1) * den ≤ 2 * num ≤ (2 * r + 1) * den
  ∧ (0 ≤ num → 2 * num < (2 * r + 1) * den)
  ∧ (num ≤ 0 → (2 * r - 1) * den < 2 * num).
Proof.
  intros num den r. unfold r, py_round. fold num. fold den.
  assert (0 < den) as Hden by (unfold den; lia).
  set (a := Z.abs num).
  set (q := (2 * a + den) / (2 * den)).
  assert (2 * den * q ≤ 2 * a + den < 2 * den * q + 2 * den) as Hq.
  { unfold q. split.
    - apply Z.mul_div_le. lia.
    - pose proof (Z.mul_succ_div_gt (2 * a + den) (2 * den)). lia. }
  destruct (Z.lt_trichotomy num 0) as [Hn | [Hn | Hn]].
  - rewrite (Z.sgn_neg _ Hn). assert (a = - num) by (unfold a; lia). nia.
  - rewrite Hn in *. simpl. assert (a = 0) by (unfold a; lia).
    assert (q = 0) by nia. nia.
  - rewrite (Z.sgn_pos _ Hn). assert (a = num) by (unfold a; lia). nia.
Qed.

(** Comparing a whole number with a multiple of a rational. *)
Lemma Qc_of_Z_le_mult (a b : Z) (x : Qc) :
  (Qc_of_Z a ≤ Qc_of_Z b * x)%Qc ↔ a * Z.pos (Qden x) ≤ b * Qnum x.
Proof.
  unfold Qcle. simpl. rewrite Qred_correct.
  unfold Qle. simpl. destruct x as [[n d] ?]. simpl. lia.
Qed.

Lemma Qc_mult_le_of_Z (a b : Z) (x : Qc) :
  (Qc_of_Z b * x ≤ Qc_of_Z a)%Qc ↔ b * Qnum x ≤ a * Z.pos (Qden x).
Proof.
  unfold Qcle. simpl. rewrite Qred_correct.
  unfold Qle. simpl. destruct x as [[n d] ?]. simpl. lia.
Qed.

Lemma Qc_of_Z_lt_mult (a b : Z) (x : Qc) :
  (Qc_of_Z a < Qc_of_Z b * x)%Qc ↔ a * Z.pos (Qden x) < b * Qnum x.
Proof.
  unfold Qclt. simpl. rewrite Qred_correct.
  unfold Qlt. simpl. destruct x as [[n d] ?]. simpl. lia.
Qed.

Lemma Qc_mult_lt_of_Z (a b : Z) (x : Qc) :
  (Qc_of_Z b * x < Qc_of_Z a)%Qc ↔ b * Qnum x < a * Z.pos (Qden x).
Proof.
  unfold Qclt. simpl. rewrite Qred_correct.
  unfold Qlt. simpl. destruct x as [[n d] ?]. simpl. lia.
Qed.

Lemma Qc_nonneg_num (x : Qc) : (0 ≤ x)%Qc ↔ 0 ≤ Qnum x.
Proof.
  unfold Qcle, Qle. simpl. destruct x as [[n d] ?]. simpl. lia.
Qed.

Lemma Qc_nonpos_num (x : Qc) : (x ≤ 0)%Qc ↔ Qnum x ≤ 0.
Proof.
  unfold Qcle, Qle. simpl. destruct x as [[n d] ?]. simpl. lia.
Qed.

Lemma py_round_bounds (x : Qc) :
  (Qc_of_Z (2 * py_round x - 1) ≤ Qc_of_Z 2 * x)%Qc
  ∧ (Qc_of_Z 2 * x ≤ Qc_of_Z (2 * py_round x + 1))%Qc
  ∧ ((0 ≤ x)%Qc → (Qc_of_Z 2 * x < Qc_of_Z (2 * py_round x + 1))%Qc)
  ∧ ((x ≤ 0)%Qc → (Qc_of_Z (2 * py_round x - 1) < Qc_of_Z 2 * x)%Qc).
Proof.
  destruct (py_round_bounds_Z x) as ([H1 H2] & H3 & H4).
  rewrite Qc_of_Z_le_mult, Qc_mult_le_of_Z, Qc_of_Z_lt_mult,
    Qc_mult_lt_of_Z, Qc_nonneg_num, Qc_nonpos_num.
  auto.
Qed.

(** *** The window of a timestamp *)

Lemma Qc_of_Z_pos n : 0 < n → (0 < Qc_of_Z n)%Qc.
Proof.
  intros Hn. rewrite <- Z2Qc_inj_0. exact (proj1 (Z2Qc_inj_lt 0 n) Hn).
Qed.




Lemma py_round_mono x y : (x ≤ y)%Qc → py_round x ≤ py_round y.
Proof.
  intros Hxy.
  destruct (py_round_bounds x) as (Hx1 & Hx2 & _).
  destruct (py_round_bounds y) as (Hy1 & Hy2 & _).
  destruct (Z_le_gt_dec (py_round x) (py_round y)) as [|Hgt]; [done|].
  exfalso.
  assert (Qc_of_Z 2 * x ≤ Qc_of_Z 2 * y)%Qc as H2xy.
  { apply Qcmult_le_mono_nonneg_l; [|assumption].
    apply Qclt_le_weak, Qc_of_Z_pos. lia. }
  assert (Qc_of_Z (2 * py_round y + 1) ≤ Qc_of_Z (2 * py_round x - 1))%Qc
    as Hmid by (apply (proj1 (Z2Qc_inj_le _ _)); lia).
  assert (Qc_of_Z 2 * x = Qc_of_Z 2 * y)%Qc as Heq.
  { apply Qcle_antisym; [assumption|].
    eapply Qcle_trans; [exact Hy2|].
    eapply Qcle_trans; [exact Hmid|assumption]. }
  assert (x = y) as ->.
  { assert (Qc_of_Z 2 ≠ 0%Qc) as H2 by (by apply Qc_of_Z_nonzero).
    replace x with (Qc_of_Z 2 * x / Qc_of_Z 2)%Qc by (by field).
    rewrite Heq. by field. }
  lia.
Qed.

(** X7: for a whole positive window size, [_get_window] is monotone: a
    later timestamp never falls into an earlier window. *)
Theorem get_window_monotone t1 t2 n :
  0 < n → (t1 ≤ t2)%Qc →
  ∃ w1 w2,
    _get_window t1 (Qc_of_Z n) = Ok w1
    ∧ _get_window t2 (Qc_of_Z n) = Ok w2
    ∧ w1 ≤ w2.
Proof.
  intros Hn Ht. eexists _, _.
  rewrite !get_window_whole_size by lia. split_and!; [done..|].
  apply Z.mul_le_mono_nonneg_l; [lia|]. apply py_round_mono.
  apply Qcmult_le_mono_nonneg_r; [|assumption].
  apply Qclt_le_weak, Qcinv_pos, Qc_of_Z_pos. assumption.
Qed.

(** *** Instances *)


Lemma get_window_monotone_witness :
  ∃ w1 w2, _get_window (Qc_of_Z 89) (Qc_of_Z 60) = Ok w1
    ∧ _get_window (Qc_of_Z 91) (Qc_of_Z 60) = Ok w2 ∧ w1 ≤ w2.
Proof.
  apply (get_window_monotone (Qc_of_Z 89) (Qc_of_Z 91) 60); [lia|].
  vm_compute. discriminate.
Defined.

(** ** The per-request aggregator, continued *)

Section RequestMore.

Import RequestProcessor.

Implicit Types (h : heap) (p : _RequestProcessor) (l : loc) (ls : list loc).

(** The objects of two stores have the same identity. *)
Definition same_objects h h' : Prop := ∀ l, same_identity (h l) (h' l).

(** What a processor keeps between calls: a representative is kept and
    carries the name it stands for, and a bucket records its own key. *)
Definition processor_ok h p : Prop :=
  (∀ n l, names_to_counters p !! n = Some l →
          l ∈ final_counters p ∧ name (h l) = n)
  ∧ (∀ k d, window_counter_data p !! k = Some d → window d = k).

Lemma same_identity_refl c : same_identity c c.
Proof. by repeat split. Qed.

Lemma same_identity_trans c1 c2 c3 :
  same_identity c1 c2 → same_identity c2 c3 → same_identity c1 c3.
Proof.
  intros (?&?&?&?&?) (?&?&?&?&?). repeat split; congruence.
Qed.

Lemma dedup_one_keeps l h p h' p' :
  dedup_one l h p = Ok (h', p') →
  (∀ n r, names_to_counters p !! n = Some r →
          r ∈ final_counters p ∧ name (h r) = n) →
  same_objects h h'
  ∧ final_counters p `prefix_of` final_counters p'
  ∧ window_counter_data p' = window_counter_data p
  ∧ (∀ n r, names_to_counters p' !! n = Some r →
            r ∈ final_counters p' ∧ name (h' r) = n).
Proof.
  unfold dedup_one. intros H Hok.
  destruct (names_to_counters p !! name (h l)) as [rep|] eqn:Hn.
  - destruct (timestamp (h l)).
    + injection H as <- <-. split_and!.
      * intros ?. apply same_identity_refl.
      * by apply prefix_app_r.
      * done.
      * intros n r Hr. destruct (Hok n r Hr) as [? ?].
        split; [|done]. simpl. apply elem_of_app. by left.
    + apply bind_Ok in H as (v & _ & H).
      apply bind_Ok in H as (rep' & Hagg & [= <- <-]).
      apply aggregate_identity in Hagg as [Hid _].
      split_and!; [|done|done|].
      * intros l'. unfold heap_set. case_decide as Hl; [|apply same_identity_refl].
        subst l'. exact Hid.
      * intros n r Hr. destruct (Hok n r Hr) as [? Hnm]. split; [done|].
        unfold heap_set. case_decide as Hl; [|done].
        subst r. destruct Hid as (_ & -> & _). done.
  - injection H as <- <-. split_and!.
    + intros ?. apply same_identity_refl.
    + by apply prefix_app_r.
    + done.
    + simpl. intros n r Hr. apply lookup_insert_Some in Hr as [[<- <-]|[? Hr]].
      * split; [|done]. apply elem_of_app. right. by left.
      * destruct (Hok n r Hr) as [? ?]. split; [|done].
        apply elem_of_app. by left.
Qed.

Lemma dedup_keeps ls h p h' p' :
  dedup ls h p = Ok (h', p') →
  (∀ n r, names_to_counters p !! n = Some r →
          r ∈ final_counters p ∧ name (h r) = n) →
  same_objects h h'
  ∧ final_counters p `prefix_of` final_counters p'
  ∧ window_counter_data p' = window_counter_data p
  ∧ (∀ n r, names_to_counters p' !! n = Some r →
            r ∈ final_counters p' ∧ name (h' r) = n).
Proof.
  revert h p. induction ls as [|l ls IH]; intros h p H Hok.
  - injection H as <- <-. split_and!; try done.
  - simpl in H. apply bind_Ok in H as ([h1 p1] & H1 & H).
    destruct (dedup_one_keeps _ _ _ _ _ H1 Hok) as (Ho1 & Hp1 & Hw1 & Hok1).
    destruct (IH _ _ H Hok1) as (Ho2 & Hp2 & Hw2 & Hok2).
    split_and!; try done.
    + intros l'. eapply same_identity_trans; [apply Ho1 | apply Ho2].
    + by etrans.
    + by rewrite Hw2.
Qed.

Lemma place_one_keys h d l wcd wcd' :
  place_one h d l wcd = Ok wcd' →
  (∀ k x, wcd !! k = Some x → window x = k) →
  ∀ k x, wcd' !! k = Some x → window x = k.
Proof.
  unfold place_one. intros (v & _ & [= <-])%bind_Ok Hok k x.
  set (w := counter_window d (h l)).
  destruct (decide (w = k)) as [<-|Hne].
  - rewrite lookup_alter_eq.
    destruct (wcd !! w) as [x0|] eqn:Hw; simpl.
    + rewrite Hw. simpl. intros [= <-]. simpl. by apply Hok.
    + rewrite lookup_insert_eq. simpl. by intros [= <-].
  - rewrite lookup_alter_ne by done.
    destruct (wcd !! w); [apply Hok|].
    rewrite lookup_insert_ne by done. apply Hok.
Qed.

Lemma place_keys h d ls wcd wcd' :
  place h d ls wcd = Ok wcd' →
  (∀ k x, wcd !! k = Some x → window x = k) →
  ∀ k x, wcd' !! k = Some x → window x = k.
Proof.
  revert wcd. induction ls as [|l ls IH]; simpl; intros wcd H Hok.
  - by injection H as <-.
  - apply bind_Ok in H as (wcd1 & H1 & H).
    eapply IH; [exact H|]. by eapply place_one_keys.
Qed.

(** X8: [_RequestProcessor.process] keeps the processor consistent: after
    a call that returns, every name still maps to a kept counter of that
    name and every bucket is stored under the window it records; the
    counter objects keep their class, name and timestamp, and the kept
    counters are only added to. *)
Theorem process_keeps_processor_ok cs h p h' p' :
  processor_ok h p →
  process cs h p = Ok (h', p') →
  processor_ok h' p'
  ∧ same_objects h h'
  ∧ final_counters p `prefix_of` final_counters p'.
Proof.
  intros [Hn Hk] H. unfold process in H.
  destruct cs as [|c cs].
  - injection H as <- <-. split_and!; try done.
  - apply bind_Ok in H as ([h1 p1] & Hd & H).
    apply bind_Ok in H as (wcd & Hp & [= <- <-]).
    destruct (dedup_keeps _ _ _ _ _ Hd Hn) as (Ho & Hpre & Hw & Hn1).
    split_and!; try done. split; [done|]. simpl.
    eapply place_keys; [exact Hp|]. by rewrite Hw.
Qed.




Lemma heap_set_same l c h : heap_set l c h l = c.
Proof. unfold heap_set. by rewrite decide_True. Qed.

(** X10: [process] is not idempotent on a counter object: processing the
    same plain counter a second time folds the object into itself, so that
    the value filed under the default window is twice the value of the
    counter. *)
Theorem relogged_counter_is_doubled f now h p l :
  __init__ f now = Ok p →
  cls (h l) = Counter →
  timestamp (h l) = None →
  ∃ h1 p1 h2 p2,
    process [l] h p = Ok (h1, p1)
    ∧ process [l] h1 p1 = Ok (h2, p2)
    ∧ final_counters p2 = [l]
    ∧ filed (serialize p1) (default_window p) (name (h l))
      = Some (PNum (_value (h l)))
    ∧ filed (serialize p2) (default_window p) (name (h l))
      = Some (PNum (_value (h l) + _value (h l))%Qc).
Proof.
  intros (w & Hw & [= <-])%bind_Ok Hc Ht.
  set (c2 := set_value (_value (h l) + _value (h l))%Qc (h l)).
  set (p0 := mk_RequestProcessor f [] ∅ ∅ w).
  set (p1 := mk_RequestProcessor f [l] {[name (h l) := l]}
               {[w := mk_window_data w {[name (h l) := PNum (_value (h l))]}]}
               w).
  assert (process [l] h p0 = Ok (h, p1)) as H1.
  { unfold process, dedup, dedup_one. simpl. rewrite lookup_empty. simpl.
    unfold place_one, counter_window. rewrite Ht, lookup_empty.
    unfold finalize. rewrite Hc. simpl. unfold set_window_counter_data.
    simpl. unfold p1. do 3 f_equal.
    rewrite alter_insert_eq. simpl. by rewrite insert_empty. }
  exists h, p1, (heap_set l c2 h).
  eexists. split_and!; [exact H1| | | |].
  - unfold process, dedup, dedup_one, p1. simpl. rewrite lookup_singleton_eq, Ht.
    unfold finalize, aggregate, Counter_aggregate, offset. rewrite Hc. simpl.
    unfold place_one, counter_window. rewrite heap_set_same. simpl.
    rewrite Ht, lookup_singleton_eq. unfold finalize. simpl. rewrite Hc. simpl.
    reflexivity.
  - done.
  - simpl. unfold filed, serialize. simpl. rewrite lookup_singleton_eq. simpl.
    by rewrite lookup_singleton_eq.
  - simpl. unfold filed, serialize. simpl. rewrite lookup_alter_eq.
    rewrite lookup_singleton_eq. simpl. by rewrite lookup_insert_eq.
Qed.

End RequestMore.

(** *** Instances *)

Section RequestWitnesses.

Import RequestProcessor.

Lemma process_keeps_processor_ok_witness :
  processor_ok backdated_state.1 backdated_state.2
  ∧ same_objects two_counters_a_backdated backdated_state.1
  ∧ final_counters processor_at_89 `prefix_of` final_counters backdated_state.2.
Proof.
  apply (process_keeps_processor_ok [0%nat; 1%nat]
           two_counters_a_backdated processor_at_89
           backdated_state.1 backdated_state.2).
  - split; intros ? ? H; unfold processor_at_89 in H; simpl in H;
      by rewrite lookup_empty in H.
  - vm_compute. reflexivity.
Defined.




Lemma relogged_counter_is_doubled_witness :
  ∃ h1 p1 h2 p2,
    process [0%nat] two_counters_a processor_at_89 = Ok (h1, p1)
    ∧ process [0%nat] h1 p1 = Ok (h2, p2)
    ∧ final_counters p2 = [0%nat]
    ∧ filed (serialize p1) (default_window processor_at_89)
            (name (two_counters_a 0%nat))
      = Some (PNum (_value (two_counters_a 0%nat)))
    ∧ filed (serialize p2) (default_window processor_at_89)
            (name (two_counters_a 0%nat))
      = Some (PNum (_value (two_counters_a 0%nat)
                    + _value (two_counters_a 0%nat))%Qc).
Proof.
  apply (relogged_counter_is_doubled (λ _, []) (Qc_of_Z 89)
           two_counters_a processor_at_89 0%nat); reflexivity.
Defined.

End RequestWitnesses.

(** ** The batch aggregator, continued *)

Section BatchMore.

Import BatchProcessor.

Implicit Types (b : _BatchProcessor) (w : Z) (m : gmap string counter)
  (s : gset string) (items : list (string * pyval)).

(** The counter held for a window and a name. *)
Definition live_counter b w (n : string) : option counter :=
  window_counters b !! w ≫= (.!! n).

(** Two batch processors differ at most in what they hold for [w] and in
    what they logged. *)
Definition same_elsewhere w b b' : Prop :=
  counters_func b' = counters_func b
  ∧ ∀ w', w' ≠ w →
      window_counters b' !! w' = window_counters b !! w'
      ∧ window_counters_available b' !! w' = window_counters_available b !! w'.

Lemma same_elsewhere_refl w b : same_elsewhere w b b.
Proof. by split. Qed.

Lemma same_elsewhere_trans w b1 b2 b3 :
  same_elsewhere w b1 b2 → same_elsewhere w b2 b3 → same_elsewhere w b1 b3.
Proof.
  intros [Hf1 H1] [Hf2 H2]. split; [congruence|].
  intros w' Hw'. destruct (H1 w' Hw'), (H2 w' Hw'). split; congruence.
Qed.

(** The body of the loop of [_init_counters]. *)
Definition init_step w b (c : counter) : _BatchProcessor :=
  if name_in_window_counters (name c) (window_counters b) then b
  else set_window_counters
         (alter (insert (name c) c) w (window_counters b)) b.

Lemma init_step_elsewhere w cs b :
  same_elsewhere w b (fold_left (init_step w) cs b)
  ∧ logged_errors (fold_left (init_step w) cs b) = logged_errors b.
Proof.
  revert b. induction cs as [|c cs IH]; intros b.
  - split; [apply same_elsewhere_refl | done].
  - change (fold_left (init_step w) (c :: cs) b)
      with (fold_left (init_step w) cs (init_step w b c)).
    destruct (IH (init_step w b c)) as [Hs Hl].
    split; [|by rewrite Hl].
    eapply same_elsewhere_trans; [|exact Hs].
    split; [done|]. intros w' Hw'. unfold init_step. simpl.
    by rewrite lookup_alter_ne.
Qed.

Lemma init_counters_elsewhere w b :
  same_elsewhere w b (_init_counters w b)
  ∧ logged_errors (_init_counters w b) = logged_errors b.
Proof.
  unfold _init_counters.
  match goal with
  | |- same_elsewhere _ _ (fold_left _ ?cs ?b0) ∧ _ =>
      destruct (init_step_elsewhere w cs b0) as [Hs Hl]
  end.
  split; [|exact Hl].
  eapply same_elsewhere_trans; [|exact Hs].
  split; [done|]. intros w' Hw'. simpl. by rewrite !lookup_insert_ne.
Qed.

(** The names of [items] that [m] does not declare, in order. *)
Definition undeclared m items : list string :=
  filter (λ n, n ∉ dom m) items.*1.

Lemma undeclared_cons m n v items :
  undeclared m ((n, v) :: items)
  = if decide (n ∈ dom m) then undeclared m items
    else n :: undeclared m items.
Proof.
  unfold undeclared. simpl. rewrite filter_cons.
  destruct (decide (n ∈ dom m)), (decide (n ∉ dom m)); done.
Qed.

Lemma undeclared_dom m1 m2 items :
  dom m1 = dom m2 → undeclared m1 items = undeclared m2 items.
Proof. unfold undeclared. by intros ->. Qed.

Lemma aggregate_one_at w b n v m :
  window_counters b !! w = Some m →
  aggregate_one w b (n, v)
  = match m !! n with
    | None => Ok (log_error n b)
    | Some c =>
        c' ← aggregate v c;
        let b1 :=
          set_window_counters
            (alter (insert n c') w (window_counters b)) b in
        Ok (set_available
              (alter (λ s, {[n]} ∪ s) w (window_counters_available b1)) b1)
    end.
Proof. intros Hm. unfold aggregate_one. by rewrite Hm. Qed.

Lemma aggregate_loop w items b m s :
  NoDup items.*1 →
  window_counters b !! w = Some m →
  window_counters_available b !! w = Some s →
  (∀ n v c, (n, v) ∈ items → m !! n = Some c →
            ∃ c', aggregate v c = Ok c') →
  ∃ b' m',
    for_each (aggregate_one w) items b = Ok b'
    ∧ window_counters b' !! w = Some m'
    ∧ window_counters_available b' !! w
      = Some (s ∪ (list_to_set items.*1 ∩ dom m))
    ∧ dom m' = dom m
    ∧ (∀ n c, m !! n = Some c →
         match (list_to_map items : gmap string pyval) !! n with
         | Some v => ∃ c', aggregate v c = Ok c' ∧ m' !! n = Some c'
         | None => m' !! n = Some c
         end)
    ∧ logged_errors b' = logged_errors b ++ undeclared m items
    ∧ same_elsewhere w b b'.
Proof.
  revert b m s. induction items as [|[n v] items IH]; intros b m s Hnd Hm Hs Hok.
  - exists b, m. rewrite for_each_nil. split_and!; try done.
    + rewrite Hs. f_equal. set_solver.
    + unfold undeclared. simpl. by rewrite app_nil_r.
  - rewrite for_each_cons. simpl in Hnd.
    apply NoDup_cons in Hnd as [Hn Hnd].
    rewrite undeclared_cons.
    rewrite (aggregate_one_at w b n v m Hm).
    destruct (m !! n) as [c|] eqn:Hmn.
    + assert (n ∈ dom m) as Hdn by (by apply elem_of_dom).
      destruct (Hok n v c) as [c' Hc']; [by left | done |].
      rewrite Hc'. simpl.
      match goal with
      | |- ∃ _ _, for_each _ _ ?b1 = _ ∧ _ =>
          destruct (IH b1 (<[n := c']> m) ({[n]} ∪ s)) as
            (b' & m' & Hf & Hm' & Hs' & Hd & Hv & Hl & He)
      end.
      * done.
      * simpl. by rewrite lookup_alter_eq, Hm.
      * simpl. by rewrite lookup_alter_eq, Hs.
      * intros n' v' c0 Hin Hc0. apply (Hok n' v' c0); [by right|].
        rewrite lookup_insert_ne in Hc0; [done|].
        intros <-. apply Hn. apply list_elem_of_fmap. by exists (n, v').
      * exists b', m'. split_and!; try done.
        -- rewrite Hs'. f_equal. rewrite dom_insert_L. set_solver.
        -- rewrite Hd, dom_insert_L. set_solver.
        -- intros n' c0 Hc0. simpl. destruct (decide (n' = n)) as [->|Hne].
           ++ rewrite lookup_insert_eq. exists c'.
              assert (c0 = c) as -> by congruence. split; [done|].
              specialize (Hv n c' (lookup_insert_eq _ _ _)).
              by rewrite (not_elem_of_list_to_map_1 _ n) in Hv.
           ++ rewrite lookup_insert_ne by done.
              apply Hv. by rewrite lookup_insert_ne.
        -- rewrite Hl. simpl. rewrite decide_True by done.
           f_equal. apply undeclared_dom. rewrite dom_insert_L. set_solver.
        -- eapply same_elsewhere_trans; [|exact He].
           split; [done|]. intros w' Hw'. simpl.
           by rewrite !lookup_alter_ne.
    + assert (n ∉ dom m) as Hdn by (by apply not_elem_of_dom).
      destruct (IH (log_error n b) m s) as
        (b' & m' & Hf & Hm' & Hs' & Hd & Hv & Hl & He); try done.
      { intros n' v' c0 Hin Hc0. apply (Hok n' v' c0); [by right | done]. }
      exists b', m'. split_and!; try done.
      * rewrite Hs'. f_equal. set_solver.
      * intros n' c0 Hc0. simpl. rewrite lookup_insert_ne by congruence.
        by apply Hv.
      * rewrite Hl. simpl. rewrite decide_False by done.
        by rewrite <- app_assoc.
Qed.


(** X11: one record of the batch: when every value that the record
    carries for a declared name can be aggregated into a fresh counter of
    that name, the record is processed without raising; the window then
    holds exactly the factory's counters, those named in the record with
    the record's value aggregated in and the others fresh; the touched names
    are the declared names of the record; the undeclared names of the
    record are logged, in order; the other windows are left alone. *)
Theorem process_one_routes_values b data :
  (∀ n v c, counters data !! n = Some v →
            fresh_counters (counters_func b) !! n = Some c →
            ∃ c', aggregate v c = Ok c') →
  ∃ b',
    process_one b data = Ok b'
    ∧ (∀ n, match fresh_counters (counters_func b) !! n with
            | None => live_counter b' (window data) n = None
            | Some c =>
                match counters data !! n with
                | Some v => ∃ c', aggregate v c = Ok c'
                                  ∧ live_counter b' (window data) n = Some c'
                | None => live_counter b' (window data) n = Some c
                end
            end)
    ∧ window_counters_available b' !! window data
      = Some (dom (counters data) ∩ dom (fresh_counters (counters_func b)))
    ∧ logged_errors b'
      = logged_errors b
        ++ filter (λ n, fresh_counters (counters_func b) !! n = None)
                  (map_to_list (counters data)).*1
    ∧ same_elsewhere (window data) b b'.
Proof.
  intros Hok. unfold process_one.
  destruct (init_counters_window (window data) b) as [Hm Hs].
  destruct (init_counters_elsewhere (window data) b) as [He Hl].
  destruct (aggregate_loop (window data) (map_to_list (counters data))
              (_init_counters (window data) b)
              (fresh_counters (counters_func b)) ∅)
    as (b' & m' & Hf & Hm' & Hs' & Hd & Hv & Hl' & He'); try done.
  { apply NoDup_fst_map_to_list. }
  { intros n v c Hin. apply (Hok n v c). by apply elem_of_map_to_list. }
  exists b'. split_and!; [done| | | |].
  - intros n. unfold live_counter. rewrite Hm'. simpl.
    destruct (fresh_counters (counters_func b) !! n) as [c|] eqn:Hn.
    + specialize (Hv n c Hn). by rewrite list_to_map_to_list in Hv.
    + apply not_elem_of_dom. rewrite Hd. by apply not_elem_of_dom.
  - rewrite Hs'. f_equal.
    assert (list_to_set (map_to_list (counters data)).*1
            = dom (counters data)) as ->.
    { apply set_eq. intros n. rewrite elem_of_list_to_set, elem_of_dom.
      rewrite list_elem_of_fmap. split.
      - intros ([n' v] & -> & Hin). apply elem_of_map_to_list in Hin. by eexists.
      - intros [v Hv']. exists (n, v). split; [done|].
        by apply elem_of_map_to_list. }
    set_solver.
  - rewrite Hl', Hl. f_equal. unfold undeclared.
    apply list_filter_iff. intros n. by rewrite not_elem_of_dom.
  - by eapply same_elsewhere_trans.
Qed.

(** What a batch keeps between calls: the counters of a window are filed
    under their own names, and the names marked as touched are names of
    counters of the window. *)
Definition batch_ok b : Prop :=
  ∀ w m, window_counters b !! w = Some m →
    (∀ n c, m !! n = Some c → name c = n)
    ∧ ∃ s, window_counters_available b !! w = Some s ∧ s ⊆ dom m.

Lemma fresh_counters_names f n c :
  fresh_counters f !! n = Some c → name c = n.
Proof.
  unfold fresh_counters. generalize (f ()). intros cs.
  assert (∀ m : gmap string counter,
            (∀ n c, m !! n = Some c → name c = n) →
            ∀ n c, foldl (λ m c, <[name c := c]> m) m cs !! n = Some c →
                   name c = n) as H.
  { induction cs as [|c0 cs IH]; simpl; intros m Hm; [done|].
    apply IH. intros n' c' [[<- <-]|[_ ?]]%lookup_insert_Some; [done|].
    by apply Hm. }
  apply H. intros ?? Hx. by rewrite lookup_empty in Hx.
Qed.

Lemma aggregate_one_ok w b item b' :
  batch_ok b → aggregate_one w b item = Ok b' → batch_ok b'.
Proof.
  intros Hb H. destruct item as [n v]. unfold aggregate_one in H.
  destruct (window_counters b !! w) as [m|] eqn:Hm; simpl in H.
  - destruct (m !! n) as [c|] eqn:Hc.
    + apply bind_Ok in H as (c' & Hagg & [= <-]).
      destruct (Hb w m Hm) as (Hnm & s & Hs & Hsub).
      intros w' m'. simpl. destruct (decide (w' = w)) as [->|Hne].
      * rewrite !lookup_alter_eq, Hm, Hs. simpl. intros [= <-]. split.
        -- intros n' c0 [[<- <-]|[_ ?]]%lookup_insert_Some; [|by apply Hnm].
           apply aggregate_identity in Hagg as [(_ & -> & _) _].
           by apply Hnm.
        -- eexists. split; [done|]. rewrite dom_insert_L.
           set_solver.
      * rewrite !lookup_alter_ne by done. apply Hb.
    + injection H as <-. exact Hb.
  - injection H as <-. exact Hb.
Qed.

Lemma process_one_ok b data b' :
  batch_ok b → process_one b data = Ok b' → batch_ok b'.
Proof.
  intros Hb. unfold process_one.
  assert (batch_ok (_init_counters (window data) b)) as Hb1.
  { destruct (init_counters_window (window data) b) as [Hm Hs].
    destruct (init_counters_elsewhere (window data) b) as [[_ He] _].
    intros w m. destruct (decide (w = window data)) as [->|Hne].
    - rewrite Hm, Hs. intros [= <-]. split.
      + apply fresh_counters_names.
      + exists ∅. split; [done | set_solver].
    - destruct (He w Hne) as [-> ->]. apply Hb. }
  revert Hb1. generalize (_init_counters (window data) b).
  generalize (map_to_list (counters data)). clear Hb b.
  intros items. induction items as [|item items IH]; intros b Hb.
  - rewrite for_each_nil. by intros [= <-].
  - rewrite for_each_cons. intros (b1 & H1 & H)%bind_Ok.
    eapply IH; [|exact H]. by eapply aggregate_one_ok.
Qed.

Lemma init_step_dom w cs b :
  dom (window_counters (fold_left (init_step w) cs b))
  = dom (window_counters b)
  ∧ counters_func (fold_left (init_step w) cs b) = counters_func b.
Proof.
  revert b. induction cs as [|c cs IH]; intros b; [done|].
  change (fold_left (init_step w) (c :: cs) b)
    with (fold_left (init_step w) cs (init_step w b c)).
  destruct (IH (init_step w b c)) as [-> ->].
  unfold init_step. simpl. by rewrite dom_alter_L.
Qed.

Lemma init_counters_dom w b :
  dom (window_counters (_init_counters w b)) = {[w]} ∪ dom (window_counters b)
  ∧ counters_func (_init_counters w b) = counters_func b.
Proof.
  unfold _init_counters.
  match goal with
  | |- dom (window_counters (fold_left _ ?cs ?b0)) = _ ∧ _ =>
      destruct (init_step_dom w cs b0) as [H1 H2]
  end.
  split; [etrans; [exact H1|] | etrans; [exact H2|]]; simpl; [|done].
  by rewrite dom_insert_L.
Qed.

Lemma aggregate_one_dom w b item b' :
  aggregate_one w b item = Ok b' →
  dom (window_counters b') = dom (window_counters b)
  ∧ counters_func b' = counters_func b.
Proof.
  destruct item as [n v]. unfold aggregate_one.
  destruct (window_counters b !! w ≫= (.!! n)) as [c|].
  - intros (c' & _ & [= <-])%bind_Ok. simpl. by rewrite dom_alter_L.
  - by intros [= <-].
Qed.

Lemma process_one_dom b data b' :
  process_one b data = Ok b' →
  dom (window_counters b') = {[window data]} ∪ dom (window_counters b)
  ∧ counters_func b' = counters_func b.
Proof.
  unfold process_one.
  destruct (init_counters_dom (window data) b) as [<- <-].
  generalize (_init_counters (window data) b).
  generalize (map_to_list (counters data)).
  intros items. induction items as [|item items IH]; intros b0.
  - rewrite for_each_nil. by intros [= <-].
  - rewrite for_each_cons. intros (b1 & H1 & H)%bind_Ok.
    destruct (aggregate_one_dom _ _ _ _ H1) as [<- <-]. by apply IH.
Qed.

(** X12: [_BatchProcessor.process] keeps the batch consistent: after a
    call that returns, every counter is filed under its own name, the
    touched names of a window are names of counters of that window, the
    factory is unchanged, and the windows held are those held before and
    those of the records. *)
Theorem process_keeps_batch_ok records b b' :
  batch_ok b →
  process records b = Ok b' →
  batch_ok b'
  ∧ counters_func b' = counters_func b
  ∧ dom (window_counters b')
    = dom (window_counters b) ∪ list_to_set (window <$> records).
Proof.
  unfold process. revert b.
  induction records as [|data records IH]; intros b Hb.
  - rewrite for_each_nil. intros [= <-]. split_and!; [done..|]. set_solver.
  - rewrite for_each_cons. intros (b1 & H1 & H)%bind_Ok.
    destruct (IH b1) as (Hb' & Hf & Hd); [by eapply process_one_ok | done |].
    destruct (process_one_dom _ _ _ H1) as [Hd1 Hf1].
    split_and!; [done | congruence |].
    rewrite Hd, Hd1. set_solver.
Qed.

End BatchMore.

Section BatchFinalize.

Import Persistence BatchProcessor.

Implicit Types (b : _BatchProcessor) (w : Z) (m : gmap string counter)
  (s : gset string).

(** The touched counters of one window, as handed to the saver; nothing
    when no counter of the window was touched. *)
Definition touched_of (available : gmap Z (gset string))
    (item : Z * gmap string counter) : option aggregate_data :=
  let t := filter (λ kv, kv.1 ∈ default ∅ (available !! item.1)) item.2 in
  if decide (t = ∅) then None else Some (mk_aggregate_data t item.1).

Lemma NoDup_fst_filter {A} (P : string * A → Prop) `{!∀ x, Decision (P x)}
    (l : list (string * A)) :
  NoDup l.*1 → NoDup (filter P l).*1.
Proof.
  intros Hnd. eapply sublist_NoDup; [exact Hnd|].
  apply fmap_sublist, sublist_filter.
Qed.

Lemma list_to_map_filter_to_list (P : string * counter → Prop)
    `{!∀ x, Decision (P x)} m :
  list_to_map (filter P (map_to_list m)) = filter P m.
Proof.
  apply map_eq. intros k. apply option_eq. intros c.
  rewrite <- elem_of_list_to_map
    by apply NoDup_fst_filter, NoDup_fst_map_to_list.
  rewrite list_elem_of_filter, elem_of_map_to_list, map_lookup_filter_Some.
  tauto.
Qed.

(** The inner loop of [finalize] over the counters of a window whose
    touched names are [names]. *)
Lemma collect_touched (available : gmap Z (gset string)) w (names : gset string)
    (l : list (string * counter)) (acc : gmap string counter) :
  available !! w = Some names →
  NoDup l.*1 →
  (∀ n c, (n, c) ∈ l → name c = n) →
  for_each
    (λ acc c,
       match available !! w with
       | None => Raise KeyError
       | Some names =>
           if bool_decide (name c ∈ names) then Ok (<[name c := c]> acc)
           else Ok acc
       end) l.*2 acc
  = Ok (list_to_map (filter (λ kv, kv.1 ∈ names) l) ∪ acc).
Proof.
  intros Hav.
  set (f := λ (acc : gmap string counter) (c : counter),
              match available !! w with
              | None => Raise KeyError
              | Some names =>
                  if bool_decide (name c ∈ names) then Ok (<[name c := c]> acc)
                  else Ok acc
              end).
  assert (∀ acc c, f acc c = if bool_decide (name c ∈ names)
                             then Ok (<[name c := c]> acc) else Ok acc) as Hf.
  { intros. unfold f. by rewrite Hav. }
  clearbody f. revert acc.
  induction l as [|[n c] l IH]; intros acc Hnd Hnm.
  - change (([] : list (string * counter)).*2) with ([] : list counter).
    rewrite for_each_nil. f_equal. simpl. by rewrite (left_id_L ∅ (∪)).
  - change (((n, c) :: l).*2) with (c :: l.*2).
    change (((n, c) :: l).*1) with (n :: l.*1) in Hnd.
    apply NoDup_cons in Hnd as [Hn Hnd].
    rewrite for_each_cons, Hf.
    rewrite (Hnm n c) by (by left).
    assert (∀ n0 c0, (n0, c0) ∈ l → name c0 = n0) as Hnm'.
    { intros n0 c0 ?. apply Hnm. by right. }
    case_bool_decide as Hin.
    + rewrite bind_Ok_l, (IH _ Hnd Hnm').
      rewrite filter_cons_True by done. simpl.
      f_equal. rewrite <- insert_union_l. symmetry. apply insert_union_r.
      apply not_elem_of_list_to_map_1. intros Hx. apply Hn.
      apply list_elem_of_fmap in Hx as (kv & -> & Hkv%list_elem_of_filter).
      apply list_elem_of_fmap. exists kv. by destruct Hkv.
    + rewrite bind_Ok_l, (IH _ Hnd Hnm').
      by rewrite filter_cons_False by done.
Qed.

Lemma collect_window_touched b acc w m :
  batch_ok b →
  window_counters b !! w = Some m →
  collect_window (window_counters_available b) acc (w, m)
  = Ok (acc ++ option_list (touched_of (window_counters_available b) (w, m))).
Proof.
  intros Hb Hm. destruct (Hb w m Hm) as (Hnm & s & Hs & _).
  unfold collect_window.
  rewrite (collect_touched _ w s (map_to_list m) ∅ Hs);
    [|apply NoDup_fst_map_to_list
     |by intros n c ?%elem_of_map_to_list; apply Hnm].
  rewrite (right_id_L ∅ (∪)), list_to_map_filter_to_list, bind_Ok_l.
  unfold touched_of. simpl. rewrite Hs. simpl.
  case_bool_decide as He; destruct (decide _) as [He'|He']; try done.
  simpl. by rewrite app_nil_r.
Qed.

(** X13: on a consistent batch, [_BatchProcessor.finalize] never raises
    [KeyError] on its own: it hands to the saver, window by window, exactly
    the touched counters, leaves out a window without a touched counter,
    and does not call the saver and leaves the store as it is when no
    counter was touched. *)
Theorem finalize_saves_touched strftime safe_join b st :
  batch_ok b →
  finalize strftime safe_join b st
  = match omap (touched_of (window_counters_available b))
               (map_to_list (window_counters b)) with
    | [] => Ok st
    | _ =>
        _save_aggregate_data strftime safe_join
          (omap (touched_of (window_counters_available b))
                (map_to_list (window_counters b))) st
    end
  ∧ ((∀ w s, window_counters_available b !! w = Some s → s = ∅) →
     finalize strftime safe_join b st = Ok st).
Proof.
  intros Hb.
  assert (∀ l acc,
            (∀ w m, (w, m) ∈ l → window_counters b !! w = Some m) →
            for_each (collect_window (window_counters_available b)) l acc
            = Ok (acc ++ omap (touched_of (window_counters_available b)) l))
    as Hloop.
  { induction l as [|[w m] l IH]; intros acc Hl.
    - rewrite for_each_nil. simpl. by rewrite app_nil_r.
    - rewrite for_each_cons, (collect_window_touched b acc w m Hb)
        by (apply Hl; by left).
      rewrite bind_Ok_l, IH by (intros; apply Hl; by right).
      f_equal. rewrite <- app_assoc. f_equal.
      simpl. by destruct (touched_of _ (w, m)). }
  assert (finalize strftime safe_join b st
          = match omap (touched_of (window_counters_available b))
                       (map_to_list (window_counters b)) with
            | [] => Ok st
            | _ =>
                _save_aggregate_data strftime safe_join
                  (omap (touched_of (window_counters_available b))
                        (map_to_list (window_counters b))) st
            end) as Hfin.
  { unfold finalize. rewrite Hloop by (by intros w m ?%elem_of_map_to_list).
    by rewrite bind_Ok_l. }
  split; [exact Hfin|].
  intros Hnone. rewrite Hfin.
  assert (omap (touched_of (window_counters_available b))
               (map_to_list (window_counters b)) = []) as ->; [|done].
  generalize (map_to_list (window_counters b)).
  intros l. induction l as [|[w m] l IH]; [done|].
  change (omap (touched_of (window_counters_available b)) ((w, m) :: l))
    with (match touched_of (window_counters_available b) (w, m) with
          | Some d =>
              d :: omap (touched_of (window_counters_available b)) l
          | None => omap (touched_of (window_counters_available b)) l
          end).
  rewrite IH. unfold touched_of. simpl.
  destruct (decide _) as [_|Hne]; [done|]. exfalso. apply Hne.
  apply map_empty. intros n. apply map_lookup_filter_None. right.
  intros c _. simpl.
  destruct (window_counters_available b !! w) as [s|] eqn:Hs; simpl.
  - rewrite (Hnone w s Hs). set_solver.
  - set_solver.
Qed.

End BatchFinalize.

(** *** Instances *)

Section BatchWitnesses.

Import BatchProcessor.

Lemma process_one_routes_values_witness :
  ∃ b',
    process_one (__init__ factory_a) (record_a 3) = Ok b'
    ∧ (∀ n, match fresh_counters factory_a !! n with
            | None => live_counter b' 60 n = None
            | Some c =>
                match counters (record_a 3) !! n with
                | Some v => ∃ c', aggregate v c = Ok c'
                                  ∧ live_counter b' 60 n = Some c'
                | None => live_counter b' 60 n = Some c
                end
            end)
    ∧ window_counters_available b' !! 60
      = Some (dom (counters (record_a 3)) ∩ dom (fresh_counters factory_a))
    ∧ logged_errors b'
      = [] ++ filter (λ n, fresh_counters factory_a !! n = None)
                     (map_to_list (counters (record_a 3))).*1
    ∧ same_elsewhere 60 (__init__ factory_a) b'.
Proof.
  apply (process_one_routes_values (__init__ factory_a) (record_a 3)).
  intros n v c Hv. unfold record_a in Hv. simpl in Hv.
  apply lookup_singleton_Some in Hv as [<- <-].
  unfold fresh_counters, factory_a. simpl.
  rewrite insert_empty, lookup_singleton_eq. intros [= <-]. by eexists.
Defined.

(** The batch after the record that carries 3 for ["a"]. *)
Definition batch_a_3 : _BatchProcessor :=
  Eval vm_compute in
    match process [record_a 3] (__init__ factory_a) with
    | Ok b => b
    | Raise _ => __init__ factory_a
    end.

Lemma batch_ok_init f : batch_ok (__init__ f).
Proof. intros w m H. simpl in H. by rewrite lookup_empty in H. Qed.

Lemma process_keeps_batch_ok_witness :
  batch_ok batch_a_3
  ∧ counters_func batch_a_3 = counters_func (__init__ factory_a)
  ∧ dom (window_counters batch_a_3)
    = dom (window_counters (__init__ factory_a))
      ∪ list_to_set (window <$> [record_a 3]).
Proof.
  apply (process_keeps_batch_ok [record_a 3] (__init__ factory_a) batch_a_3).
  - apply batch_ok_init.
  - vm_compute. reflexivity.
Defined.

Lemma finalize_saves_touched_witness :
  finalize Samples.strftime Samples.safe_join batch_a_3 ∅
  = match omap (touched_of (window_counters_available batch_a_3))
               (map_to_list (window_counters batch_a_3)) with
    | [] => Ok ∅
    | _ =>
        Persistence._save_aggregate_data Samples.strftime Samples.safe_join
          (omap (touched_of (window_counters_available batch_a_3))
                (map_to_list (window_counters batch_a_3))) ∅
    end
  ∧ ((∀ w s, window_counters_available batch_a_3 !! w = Some s → s = ∅) →
     finalize Samples.strftime Samples.safe_join batch_a_3 ∅ = Ok ∅).
Proof.
  apply (finalize_saves_touched Samples.strftime Samples.safe_join
           batch_a_3 ∅).
  apply (process_one_ok (__init__ factory_a) (record_a 3)).
  - apply batch_ok_init.
  - vm_compute. reflexivity.
Defined.

End BatchWitnesses.

(** ** The persistence merger, continued *)

Section MergeMore.

Import Persistence.

Implicit Types (s old pre post : series) (c : counter) (w : Z) (e : Z * pyval).

(** The entries of the other windows. *)
Definition others w s : series := filter (λ e, e.1 ≠ w) s.

Lemma others_all w s : Forall (λ e, e.1 ≠ w) s → others w s = s.
Proof.
  unfold others. induction 1 as [|e s He _ IH]; [done|].
  by rewrite filter_cons_True, IH.
Qed.

Lemma others_split w x pre post :
  Forall (λ e, e.1 < w) pre → Forall (λ e, w < e.1) post →
  others w (pre ++ (w, x) :: post) = pre ++ post
  ∧ others w (pre ++ post) = pre ++ post.
Proof.
  intros Hl Hg.
  assert (others w pre = pre) as Hpre.
  { apply others_all. eapply Forall_impl; [exact Hl|]. simpl. lia. }
  assert (others w post = post) as Hpost.
  { apply others_all. eapply Forall_impl; [exact Hg|]. simpl. lia. }
  unfold others in *. rewrite !filter_app, filter_cons_False, Hpre, Hpost.
  - done.
  - simpl. by intros ?.
Qed.

(** X14: merging a counter of any class for a window into an ascending
    series, when it returns, gives an ascending series that has the
    entries of all other windows unchanged and exactly one entry for the
    window, the value the merged counter finalizes to. *)
Theorem merge_window_keeps_series w c v old ct c' :
  ascending old →
  finalize c = Ok v →
  merge_window w c old = Ok (ct, c') →
  ascending ct
  ∧ others w ct = others w old
  ∧ ∃ v', finalize c' = Ok v' ∧ values_at w ct = [v'].
Proof.
  intros Hasc Hv.
  destruct (ascending_split w _ Hasc)
    as (pre & post & Hpre & Hpost & Hl & Hg & [-> | [x ->]]).
  - rewrite (merge_window_absent w c v) by done.
    rewrite sort_by_window_ascending by (by apply ascending_insert).
    intros [= <- <-]. split_and!.
    + by apply ascending_insert.
    + destruct (others_split w v pre post Hl Hg) as [-> ->]. done.
    + exists v. split; [done|]. by apply values_at_split.
  - rewrite (merge_window_present w c v) by done.
    destruct (decide (x = v)) as [->|Hne].
    + rewrite sort_by_window_ascending by (by apply ascending_insert).
      intros [= <- <-]. split_and!.
      * by apply ascending_insert.
      * done.
      * exists v. split; [done|]. by apply values_at_split.
    + intros (c1 & Hc1 & (v' & Hv' & [= <- <-])%bind_Ok)%bind_Ok.
      rewrite sort_by_window_ascending by (by apply ascending_insert).
      split_and!.
      * by apply ascending_insert.
      * destruct (others_split w v' pre post Hl Hg) as [-> _].
        destruct (others_split w x pre post Hl Hg) as [-> _]. done.
      * exists v'. split; [done|]. by apply values_at_split.
Qed.

Section StoreMore.

Variable strftime : Z → string → string.
Variable safe_join : list string → string.

Local Abbreviation path := (_make_log_path strftime safe_join).
Local Abbreviation save w n c :=
  (_save_aggregate_data strftime safe_join [mk_aggregate_data {[n := c]} w]).

Lemma json_series_cons_pair w x k s :
  json_series ((w, PTuple x k) :: s) = (w, PList x k) :: json_series s.
Proof. reflexivity. Qed.

(** X15: an averaging counter is folded into its own stored entry: JSON
    stores its pair as a list, which never equals the pair it finalizes
    to, so that persisting the same [AverageCounter] of non-zero weight a
    second time for the same window stores the same value with twice the
    weight. *)
Theorem average_merged_twice_doubles_weight st w n c :
  cls c = AverageCounter →
  _weight c ≠ 0 →
  ascending (read_content st (path w c)) →
  values_at w (read_content st (path w c)) = [] →
  ∃ st1 st2,
    save w n c st = Ok st1
    ∧ save w n c st1 = Ok st2
    ∧ values_at w (read_content st1 (path w c))
      = [PList (_value c) (_weight c)]
    ∧ values_at w (read_content st2 (path w c))
      = [PList (_value c) (_weight c + _weight c)].
Proof.
  intros Hc Hw Hasc Hnone.
  destruct (ascending_split w _ Hasc)
    as (pre & post & Hpre & Hpost & Hl & Hg & Hs).
  pose proof (json_series_ascending _ Hpre) as Hpre'.
  pose proof (json_series_ascending _ Hpost) as Hpost'.
  pose proof (json_series_Forall (λ k, k < w) _ Hl) as Hl'.
  pose proof (json_series_Forall (λ k, w < k) _ Hg) as Hg'.
  cbv beta in Hl', Hg'.
  destruct Hs as [Hs | [x Hs]]; rewrite Hs in Hnone;
    [|by rewrite values_at_split in Hnone].
  assert (finalize c = Ok (PTuple (_value c) (_weight c))) as Hfin.
  { unfold finalize. by rewrite Hc. }
  assert (Qc_of_Z (_weight c + _weight c) ≠ 0%Qc) as Hww.
  { apply Qc_of_Z_nonzero. lia. }
  assert (Qc_of_Z (_weight c) ≠ 0%Qc) as Hw1 by (by apply Qc_of_Z_nonzero).
  set (c2 := set_weight (_weight c + _weight c)
               (set_value
                  ((_value c * Qc_of_Z (_weight c)
                    + _value c * Qc_of_Z (_weight c))
                   / Qc_of_Z (_weight c + _weight c))%Qc c)).
  assert (aggregate (PList (_value c) (_weight c)) c = Ok c2) as Hagg.
  { unfold aggregate, AverageCounter_aggregate. rewrite Hc.
    rewrite (proj2 (Z.eqb_neq _ 0) Hw).
    rewrite (proj2 (Z.eqb_neq (_weight c + _weight c) 0)) by lia. done. }
  assert (finalize c2 = Ok (PTuple (_value c) (_weight c + _weight c)))
    as Hfin2.
  { unfold finalize, c2. simpl. rewrite Hc. unfold AverageCounter_finalize.
    simpl. do 2 f_equal. rewrite Z2Qc_inj_add in *. field. done. }
  eexists. eexists. split_and!.
  - rewrite save_single, Hs, (merge_window_absent w c _ pre post Hl Hg Hfin).
    rewrite bind_merge_Ok. reflexivity.
  - rewrite save_single, read_content_insert.
    rewrite sort_by_window_ascending by (by apply ascending_insert).
    rewrite json_series_app, json_series_cons_pair.
    rewrite (merge_window_present w c _ _ _ _ Hl' Hg' Hfin).
    rewrite decide_False by done.
    unfold overwrite. rewrite Hc. simpl negb. cbv iota.
    rewrite Hagg, bind_Ok_l, Hfin2, bind_Ok_l, bind_merge_Ok. reflexivity.
  - rewrite read_content_insert.
    rewrite sort_by_window_ascending by (by apply ascending_insert).
    rewrite json_series_app, json_series_cons_pair. by apply values_at_split.
  - rewrite read_content_insert.
    rewrite sort_by_window_ascending by (by apply ascending_insert).
    rewrite json_series_app, json_series_cons_pair, !json_series_idemp.
    by apply values_at_split.
Qed.

End StoreMore.

End MergeMore.

Section SaveMore.

Import Persistence.

Variable strftime : Z → string → string.
Variable safe_join : list string → string.

Local Abbreviation path := (_make_log_path strftime safe_join).

(** The file [f] at [p] is the file of a counter of [data]: [p] is the
    path of the counter for its window, and [f] carries the name the
    counter is filed under and the day of the window. *)
Definition written_by (data : list aggregate_data) (p : string)
    (f : stored_file) : Prop :=
  ∃ ad n c,
    ad ∈ data ∧ ad_counters ad !! n = Some c
    ∧ p = path (ad_window ad) c
    ∧ stats_counter_name f = n
    ∧ stats_date f = day_start (ad_window ad).

(** The same of an entry of [window_files]. *)
Definition item_of (data : list aggregate_data) (p : string)
    (fi : file_item) : Prop :=
  ∃ ad n c,
    ad ∈ data ∧ ad_counters ad !! n = Some c
    ∧ p = path (ad_window ad) c
    ∧ fi_counter_name fi = n
    ∧ fi_window_datetime fi = ad_window ad.

Lemma save_counter_items data st ad n c wf wf' :
  ad ∈ data → ad_counters ad !! n = Some c →
  (∀ p fi, wf !! p = Some fi → item_of data p fi) →
  save_counter strftime safe_join st (ad_window ad) wf (n, c) = Ok wf' →
  ∀ p fi, wf' !! p = Some fi → item_of data p fi.
Proof.
  intros Had Hc Hwf H. unfold save_counter in H.
  apply bind_Ok in H as ([ct c'] & _ & [= <-]).
  intros p fi [[<- <-]|[_ ?]]%lookup_insert_Some; [|by apply Hwf].
  destruct (wf !! path (ad_window ad) c) as [fi0|] eqn:Hp; simpl.
  - destruct (Hwf _ _ Hp) as (ad0 & n0 & c0 & ? & ? & ? & ? & ?).
    by exists ad0, n0, c0.
  - by exists ad, n, c.
Qed.

Lemma save_aggregate_items data st ad wf wf' :
  ad ∈ data →
  (∀ p fi, wf !! p = Some fi → item_of data p fi) →
  save_aggregate strftime safe_join st wf ad = Ok wf' →
  ∀ p fi, wf' !! p = Some fi → item_of data p fi.
Proof.
  intros Had. unfold save_aggregate.
  assert (∀ n c, (n, c) ∈ map_to_list (ad_counters ad) →
                 ad_counters ad !! n = Some c) as Hin.
  { intros n c. apply elem_of_map_to_list. }
  revert Hin wf. generalize (map_to_list (ad_counters ad)).
  intros l. induction l as [|[n c] l IH]; intros Hin wf Hwf.
  - rewrite for_each_nil. by intros [= <-].
  - rewrite for_each_cons. intros (wf1 & H1 & H)%bind_Ok.
    eapply (IH (λ n c Hx, Hin n c (list_elem_of_further _ _ _ Hx)));
      [|exact H].
    eapply save_counter_items; [exact Had| |exact Hwf|exact H1].
    apply Hin. by left.
Qed.

Lemma write_files_lookup (l : list (string * file_item))
    (st : gmap string stored_file) p :
  match fold_left
          (λ st' '(path, fi),
             <[path := mk_stored_file
                         (prod_map id json_roundtrip <$> fi_content fi)
                         (fi_counter_name fi)
                         (day_start (fi_window_datetime fi))]> st')
          l st !! p with
  | Some f =>
      st !! p = Some f
      ∨ ∃ fi, (p, fi) ∈ l ∧ stats_counter_name f = fi_counter_name fi
              ∧ stats_date f = day_start (fi_window_datetime fi)
  | None => st !! p = None
  end.
Proof.
  revert st. induction l as [|[q fi] l IH]; intros st.
  - simpl. by destruct (st !! p); [left|].
  - simpl. specialize (IH (<[q := mk_stored_file
                                 (prod_map id json_roundtrip <$> fi_content fi)
                                 (fi_counter_name fi)
                                 (day_start (fi_window_datetime fi))]> st)).
    destruct (fold_left _ l _ !! p) as [f|].
    + destruct IH as [[[<- <-]|[_ ?]]%lookup_insert_Some
                     | (fi' & ? & ? & ?)].
      * right. exists fi. split; [by left | done].
      * by left.
      * right. exists fi'. split; [by right | done].
    + by apply lookup_insert_None in IH as [? _].
Qed.

(** X16: [_save_aggregate_data] removes no file and changes only files of
    the counters it is given: after a call that returns, the file at a path
    is the one that was there, or the path is the log path of one of the
    counters for its window and the file carries the name that counter is
    filed under and the day of that window. *)
Theorem save_touches_only_counter_files data st st' :
  _save_aggregate_data strftime safe_join data st = Ok st' →
  ∀ p, match st' !! p with
       | Some f => st !! p = Some f ∨ written_by data p f
       | None => st !! p = None
       end.
Proof.
  intros (wf & Hwf & [= <-])%bind_Ok p.
  assert (∀ q fi, wf !! q = Some fi → item_of data q fi) as Hitems.
  { assert (∀ l wf0 wf1,
              (∀ ad, ad ∈ l → ad ∈ data) →
              (∀ q fi, wf0 !! q = Some fi → item_of data q fi) →
              for_each (save_aggregate strftime safe_join st) l wf0 = Ok wf1 →
              ∀ q fi, wf1 !! q = Some fi → item_of data q fi) as Hloop.
    { induction l as [|ad l IH]; intros wf0 wf1 Hl H0.
      - rewrite for_each_nil. by intros [= <-].
      - rewrite for_each_cons. intros (wf2 & H2 & H)%bind_Ok.
        eapply (IH wf2 wf1); [|  |exact H].
        + intros ? ?. apply Hl. by right.
        + eapply save_aggregate_items; [|exact H0|exact H2].
          apply Hl. by left. }
    apply (Hloop data ∅ wf); [done| |done].
    intros q fi Hq. by rewrite lookup_empty in Hq. }
  unfold write_files.
  pose proof (write_files_lookup (map_to_list wf) st p) as H.
  destruct (fold_left _ _ _ !! p) as [f|]; [|done].
  destruct H as [?|(fi & Hfi%elem_of_map_to_list & Hn & Hd)]; [by left|].
  right. destruct (Hitems _ _ Hfi) as (ad & n & c & ? & ? & ? & ? & ?).
  exists ad, n, c. split_and!; congruence.
Qed.

End SaveMore.

(** *** Instances *)

Section MergeWitnesses.

Import Persistence.

Lemma merge_window_keeps_series_witness :
  ascending [(0, PNum (Qc_of_Z 1)); (60, PNum (Qc_of_Z 8));
             (120, PNum (Qc_of_Z 2))]
  ∧ others 60 [(0, PNum (Qc_of_Z 1)); (60, PNum (Qc_of_Z 8));
               (120, PNum (Qc_of_Z 2))]
    = others 60 [(0, PNum (Qc_of_Z 1)); (60, PNum (Qc_of_Z 3));
                 (120, PNum (Qc_of_Z 2))]
  ∧ ∃ v', finalize (counter_c Counter 8) = Ok v'
          ∧ values_at 60 [(0, PNum (Qc_of_Z 1)); (60, PNum (Qc_of_Z 8));
                          (120, PNum (Qc_of_Z 2))] = [v'].
Proof.
  apply (merge_window_keeps_series 60 (counter_c Counter 5)
           (PNum (Qc_of_Z 5))
           [(0, PNum (Qc_of_Z 1)); (60, PNum (Qc_of_Z 3));
            (120, PNum (Qc_of_Z 2))]).
  - repeat constructor; simpl; lia.
  - reflexivity.
  - closed_eq.
Defined.

(** An averaging counter named ["c"] that holds 15 with weight 2. *)
Definition average_c : counter :=
  mk_counter AverageCounter "c" DATE_FORMAT DATA_FILENAME None
             (Qc_of_Z 15) 2 None.

Lemma average_merged_twice_doubles_weight_witness :
  ∃ st1 st2,
    _save_aggregate_data Samples.strftime Samples.safe_join
      [mk_aggregate_data {[ "c" := average_c ]} 60] ∅ = Ok st1
    ∧ _save_aggregate_data Samples.strftime Samples.safe_join
        [mk_aggregate_data {[ "c" := average_c ]} 60] st1 = Ok st2
    ∧ values_at 60
        (read_content st1
           (_make_log_path Samples.strftime Samples.safe_join 60 average_c))
      = [PList (_value average_c) (_weight average_c)]
    ∧ values_at 60
        (read_content st2
           (_make_log_path Samples.strftime Samples.safe_join 60 average_c))
      = [PList (_value average_c) (_weight average_c + _weight average_c)].
Proof.
  assert (ascending
            (read_content ∅
               (_make_log_path Samples.strftime Samples.safe_join 60
                  average_c))) as Hasc.
  { vm_compute. constructor. }
  apply (average_merged_twice_doubles_weight Samples.strftime
           Samples.safe_join ∅ 60 "c" average_c).
  - reflexivity.
  - discriminate.
  - exact Hasc.
  - reflexivity.
Defined.

(** The store after persisting 5 for ["c"] and the window 60 on top of
    [store_c_3]. *)
Definition store_c_8 : gmap string stored_file :=
  Eval vm_compute in
    match save_c Counter 60 5 store_c_3 with
    | Ok st => st
    | Raise _ => store_c_3
    end.

Lemma save_touches_only_counter_files_witness :
  match store_c_8 !! path_c with
  | Some f =>
      store_c_3 !! path_c = Some f
      ∨ written_by Samples.strftime Samples.safe_join
          [mk_aggregate_data {[ "c" := counter_c Counter 5 ]} 60] path_c f
  | None => store_c_3 !! path_c = None
  end.
Proof.
  apply (save_touches_only_counter_files Samples.strftime Samples.safe_join
           [mk_aggregate_data {[ "c" := counter_c Counter 5 ]} 60]
           store_c_3 store_c_8).
  vm_compute. reflexivity.
Defined.

End MergeWitnesses.

(** ** The read service *)

Section ServiceProps.

Import Service.

Variable list_files : string → Z → Z → list stored_file.

Implicit Types (final : gmap string series) (n : string).

Lemma extend_files n files final :
  fold_left (extend_counter_data n) files final
  = match files with
    | [] => final
    | _ => <[n := default [] (final !! n) ++ concat (content <$> files)]> final
    end.
Proof.
  assert (∀ files l final, final !! n = Some l →
            fold_left (extend_counter_data n) files final
            = <[n := l ++ concat (content <$> files)]> final) as Hsome.
  { clear. induction files as [|f files IH]; intros l final Hl.
    - simpl. by rewrite app_nil_r, insert_id.
    - simpl. unfold extend_counter_data at 2. rewrite Hl.
      erewrite IH; [|by rewrite lookup_alter_eq, Hl].
      rewrite <- app_assoc.
      apply map_eq. intros k. destruct (decide (k = n)) as [->|Hne].
      + by rewrite !lookup_insert_eq.
      + by rewrite !lookup_insert_ne, lookup_alter_ne. }
  destruct files as [|f files]; [done|].
  destruct (final !! n) as [l|] eqn:Hl.
  - by apply Hsome.
  - simpl. unfold extend_counter_data at 2. rewrite Hl.
    erewrite Hsome; [|by rewrite lookup_alter_eq, lookup_insert_eq].
    simpl. apply map_eq. intros k. destruct (decide (k = n)) as [->|Hne].
    + by rewrite !lookup_insert_eq.
    + by rewrite !lookup_insert_ne, lookup_alter_ne, lookup_insert_ne.
Qed.

(** The series collected for one counter name: the contents of its files
    one after the other, or nothing when it has no file. *)
Definition collected (s e : Z) n : option series :=
  match list_files n s e with
  | [] => None
  | files => Some (concat (content <$> files))
  end.

Lemma collect_names s e names final k :
  NoDup names →
  (∀ n, n ∈ names → final !! n = None) →
  fold_left
    (λ final n, fold_left (extend_counter_data n) (list_files n s e) final)
    names final !! k
  = if decide (k ∈ names) then collected s e k else final !! k.
Proof.
  revert final. induction names as [|n names IH]; intros final Hnd Hfresh.
  - cbn [fold_left]. case_decide as Hk; [by apply elem_of_nil in Hk | done].
  - apply NoDup_cons in Hnd as [Hn Hnd]. cbn [fold_left].
    rewrite extend_files, IH; [|done|].
    + destruct (decide (k ∈ names)) as [Hk|Hk].
      * rewrite decide_True; [done | by right].
      * destruct (decide (k = n)) as [->|Hne].
        -- rewrite decide_True by (by left). unfold collected.
           destruct (list_files n s e) as [|f files]; [|].
           ++ apply Hfresh. by left.
           ++ rewrite lookup_insert_eq, (Hfresh n) by (by left). done.
        -- rewrite decide_False by (by intros [?|?]%elem_of_cons).
           destruct (list_files n s e); [done|].
           by rewrite lookup_insert_ne.
    + intros n' Hn'. destruct (list_files n s e); [apply Hfresh; by right|].
      rewrite lookup_insert_ne by (by intros <-). apply Hfresh. by right.
Qed.

(** X17: [get_counter_data] raises [ValueError] exactly when both dates
    are given and the end date is before the start date.  For names without
    repetition and dates in order (or no end date) it returns, for every
    requested name that has a file in the range, the contents of its files
    one after the other, sorted by window; a requested name without a file
    and a name that was not requested have no entry.  Dates left out
    default to the day of [now]. *)
Theorem get_counter_data_collects now names start_date end_date :
  NoDup names →
  (get_counter_data list_files now names start_date end_date
   = Raise ValueError
   ↔ ∃ s e, start_date = Some s ∧ end_date = Some e ∧ e < s)
  ∧ ((∀ e, end_date = Some e → ∃ s, start_date = Some s ∧ s ≤ e) →
     ∃ data,
       get_counter_data list_files now names start_date end_date = Ok data
       ∧ ∀ n, data !! n
              = if decide (n ∈ names)
                then sort_by_window
                       <$> collected (bound now start_date)
                                     (bound now end_date) n
                else None).
Proof.
  intros Hnd. split.
  - unfold get_counter_data.
    destruct end_date as [e|], start_date as [s|]; simpl.
    + destruct (e <? s) eqn:He; simpl.
      * split; [|done]. intros _. exists s, e. split_and!; [done..|lia].
      * split; [done|]. intros (? & ? & [= <-] & [= <-] & ?). lia.
    + split; [done|]. by intros (? & ? & ? & ? & ?).
    + split; [done|]. by intros (? & ? & ? & ? & ?).
    + split; [done|]. by intros (? & ? & ? & ? & ?).
  - intros Hdates. unfold get_counter_data.
    assert (match end_date with
            | None => Ok ()
            | Some e =>
                match start_date with
                | None => Raise TypeError
                | Some s => if e <? s then Raise ValueError else Ok ()
                end
            end = Ok ()) as ->.
    { destruct end_date as [e|]; [|done].
      destruct (Hdates e eq_refl) as (s & -> & Hle).
      by rewrite (proj2 (Z.ltb_ge e s)). }
    eexists. split; [reflexivity|]. intros n.
    rewrite lookup_fmap, collect_names by done.
    by destruct (decide (n ∈ names)).
Qed.

End ServiceProps.

(** *** Instances *)

Section ServiceWitnesses.

Import Service.

(** A store listing with one file for ["c"], whatever the dates. *)
Definition one_file_of_c (n : string) (s e : Z) : list stored_file :=
  if decide (n = "c")
  then [mk_stored_file [(120, PNum (Qc_of_Z 5)); (60, PNum (Qc_of_Z 3))] "c" 0]
  else [].

Lemma get_counter_data_collects_witness :
  ∃ data,
    get_counter_data one_file_of_c 100 ["c"; "d"] None None = Ok data
    ∧ ∀ n, data !! n
           = if decide (n ∈ ["c"; "d"])
             then sort_by_window
                    <$> collected one_file_of_c (bound 100 None)
                                  (bound 100 None) n
             else None.
Proof.
  apply (proj2 (get_counter_data_collects one_file_of_c 100 ["c"; "d"]
                  None None ltac:(by apply NoDup_cons_2;
                                    [intros ?%list_elem_of_singleton
                                    |apply NoDup_singleton]))).
  intros e [=].
Defined.

End ServiceWitnesses.

(** ** The decorators *)

Section DecoratorProps.

Import Decorators.

Context {A : Type}.

(** Calls of a wrapper one after the other on the decorator's counter. *)
Fixpoint calls (wrapper : result A → counter → counter * result A)
    (funcs : list (result A)) (c : counter) : counter * list (result A) :=
  match funcs with
  | [] => (c, [])
  | func :: funcs' =>
      let '(c1, r) := wrapper func c in
      let '(c2, rs) := calls wrapper funcs' c1 in
      (c2, r :: rs)
  end.

Lemma calls_Count (funcs : list (result A)) c :
  cls c = Counter →
  calls Count_wrapper funcs c
  = (set_value (_value c + Qc_of_Z (Z.of_nat (length funcs)))%Qc c, funcs).
Proof.
  intros Hc. revert c Hc. induction funcs as [|func funcs IH]; intros c Hc.
  - cbn [calls length]. change (Z.of_nat 0) with 0.
    by rewrite Z2Qc_inj_0, Qcplus_0_r, set_value_id.
  - cbn [calls length]. unfold Count_wrapper, increment. rewrite Hc.
    unfold Counter_increment. rewrite IH by done.
    rewrite set_value_set_value. do 2 f_equal.
    rewrite Nat2Z.inj_succ, <- Z.add_1_l, Z2Qc_inj_add, Z2Qc_inj_1.
    simpl. ring.
Qed.

(** X18: a function decorated with [Count] is counted on every call,
    also on calls that raise, and its results and exceptions are passed on
    unchanged: after the calls the decorator's counter finalizes to the
    number of calls. *)
Theorem Count_counts_every_call counter_name c (funcs : list (result A)) :
  Count_make_counters counter_name = Ok [c] →
  ∃ c',
    calls Count_wrapper funcs c = (c', funcs)
    ∧ name c' = counter_name
    ∧ finalize c' = Ok (PNum (Qc_of_Z (Z.of_nat (length funcs)))).
Proof.
  intros (c0 & Hnew & [= <-])%bind_Ok.
  unfold new, Counters.__init__ in Hnew.
  destruct (contains_char _ _); [done|].
  destruct (_ || _); [done|]. injection Hnew as <-.
  eexists. split_and!.
  - by apply calls_Count.
  - done.
  - unfold finalize. simpl. unfold Counter_finalize. simpl.
    do 2 f_equal. ring.
Qed.

Import RequestProcessor.

(** X19: a function decorated with [AverageTime] that returns is timed
    and its result passed on, the counter being stopped again.  When the
    function raises, the exception is passed on and the counter is left
    running: its [finalize] raises [AssertionError], so does every later
    call of the decorated function, whatever the function would do, and so
    does [process] on an activity that holds the counter. *)
Theorem AverageTime_stuck_after_exception c t0 t1 e (r : A) :
  cls c = AverageTimingCounter →
  _start c = None →
  0 ≤ _weight c →
  ∃ c1 c2,
    AverageTime_wrapper t0 t1 (Ok r) c = (c2, Ok r)
    ∧ stop t1 c1 = Ok c2
    ∧ _start c2 = None
    ∧ AverageTime_wrapper (A := A) t0 t1 (Raise e) c = (c1, Raise e)
    ∧ _start c1 = Some t0
    ∧ finalize c1 = Raise AssertionError
    ∧ (∀ t0' t1' (func : result A),
         AverageTime_wrapper t0' t1' func c1 = (c1, Raise AssertionError))
    ∧ (∀ f now p (h : heap) l,
         __init__ f now = Ok p → h l = c1 →
         process [l] h p = Raise AssertionError).
Proof.
  intros Hc Hs Hw.
  assert (start t0 c = Ok (set_start (Some t0) c)) as H1.
  { unfold start. by rewrite Hc, Hs. }
  assert (∃ c2, stop t1 (set_start (Some t0) c) = Ok c2 ∧ _start c2 = None)
    as (c2 & H2 & Hs2).
  { eexists. split.
    - unfold stop, offset. simpl. rewrite Hc. simpl.
      unfold AverageCounter_offset, AverageCounter_aggregate. simpl.
      rewrite (proj2 (Z.eqb_neq (_weight c + 1) 0)) by lia. reflexivity.
    - done. }
  assert (finalize (set_start (Some t0) c) = Raise AssertionError) as H4.
  { unfold finalize. simpl. by rewrite Hc. }
  exists (set_start (Some t0) c), c2. split_and!.
  - unfold AverageTime_wrapper. by rewrite H1, H2.
  - done.
  - done.
  - unfold AverageTime_wrapper. by rewrite H1.
  - done.
  - done.
  - intros t0' t1' func. unfold AverageTime_wrapper, start.
    simpl. by rewrite Hc.
  - intros f now p h l (w & _ & [= <-])%bind_Ok Hl.
    unfold process, dedup, dedup_one. simpl. rewrite lookup_empty. simpl.
    unfold place_one. by rewrite Hl, H4.
Qed.

End DecoratorProps.

(** *** Instances *)

Section DecoratorWitnesses.

Import Decorators.

Lemma Count_counts_every_call_witness :
  ∃ c',
    calls Count_wrapper [Ok 1; Raise KeyError; Ok 2]
      (mk_counter Counter "file/upload" DATE_FORMAT DATA_FILENAME None
                  0%Qc 0 None)
    = (c', [Ok 1; Raise KeyError; Ok 2])
    ∧ name c' = "file/upload"
    ∧ finalize c'
      = Ok (PNum (Qc_of_Z
                    (Z.of_nat (length [Ok 1; Raise KeyError; Ok 2])))).
Proof.
  apply (Count_counts_every_call "file/upload"). reflexivity.
Defined.

Lemma AverageTime_stuck_after_exception_witness :
  ∃ c1 c2,
    AverageTime_wrapper (Qc_of_Z 10) (Qc_of_Z 12) (Ok 7)
      (counter_c AverageTimingCounter 0) = (c2, Ok 7)
    ∧ stop (Qc_of_Z 12) c1 = Ok c2
    ∧ _start c2 = None
    ∧ AverageTime_wrapper (A := Z) (Qc_of_Z 10) (Qc_of_Z 12)
        (Raise KeyError) (counter_c AverageTimingCounter 0)
      = (c1, Raise KeyError)
    ∧ _start c1 = Some (Qc_of_Z 10)
    ∧ finalize c1 = Raise AssertionError
    ∧ (∀ t0' t1' (func : result Z),
         AverageTime_wrapper t0' t1' func c1 = (c1, Raise AssertionError))
    ∧ (∀ f now p (h : RequestProcessor.heap) l,
         RequestProcessor.__init__ f now = Ok p → h l = c1 →
         RequestProcessor.process [l] h p = Raise AssertionError).
Proof.
  apply (AverageTime_stuck_after_exception
           (counter_c AverageTimingCounter 0)); [reflexivity..|].
  vm_compute. discriminate.
Defined.

End DecoratorWitnesses.

(** ** From a request to the store *)

Section Pipeline.

Import Persistence.

Variable strftime : Z → string → string.
Variable safe_join : list string → string.

(** From the end of a request to the store: the counters [cs] of an
    activity are processed by a request processor, what it serializes is
    processed by its clean batch processor, and the batch is finalized
    into the store. *)
Definition log_and_store (cs : list RequestProcessor.loc)
    (h : RequestProcessor.heap) (p : RequestProcessor._RequestProcessor)
    (st : gmap string stored_file) : result (gmap string stored_file) :=
  '(_, p') ← RequestProcessor.process cs h p;
  b ← BatchProcessor.process
         (map_to_list (RequestProcessor.serialize p')).*2
         (batch_processor p');
  BatchProcessor.finalize strftime safe_join b st.

Lemma init_counters_fresh w f :
  BatchProcessor.window_counters
    (BatchProcessor._init_counters w (BatchProcessor.__init__ f))
  = {[w := fresh_counters f]}
  ∧ BatchProcessor.window_counters_available
      (BatchProcessor._init_counters w (BatchProcessor.__init__ f))
    = {[w := ∅]}.
Proof.
  destruct (init_counters_window w (BatchProcessor.__init__ f)) as [Hm Hs].
  destruct (init_counters_elsewhere w (BatchProcessor.__init__ f))
    as [[_ He] _].
  split; apply map_eq; intros w'; destruct (decide (w' = w)) as [->|Hne].
  - by rewrite lookup_singleton_eq.
  - rewrite lookup_singleton_ne by done. by destruct (He w' Hne) as [-> _].
  - by rewrite lookup_singleton_eq.
  - rewrite lookup_singleton_ne by done. by destruct (He w' Hne) as [_ ->].
Qed.

(** X20: a plain counter without a timestamp that is logged alone in a
    request and is declared, as a plain counter starting at zero, by the
    factory reaches the store: processing it, handing what the request
    processor serializes to its clean batch processor and finalizing the
    batch into the empty store leaves exactly one file, at the log path of
    the declared counter for the window of the request, that holds the
    counter's value for that window and carries the counter's name and the
    day of the window. *)
Theorem logged_counter_is_stored f now h l p c0 :
  RequestProcessor.__init__ f now = Ok p →
  cls (h l) = Counter →
  timestamp (h l) = None →
  fresh_counters f !! name (h l) = Some c0 →
  cls c0 = Counter →
  _value c0 = 0%Qc →
  log_and_store [l] h p ∅
  = Ok {[ _make_log_path strftime safe_join
            (RequestProcessor.default_window p) c0
          := mk_stored_file
               [(RequestProcessor.default_window p, PNum (_value (h l)))]
               (name (h l))
               (day_start (RequestProcessor.default_window p)) ]}.
Proof.
  intros (w & Hw & [= <-])%bind_Ok Hc Ht Hf Hc0 Hv0. simpl.
  set (n := name (h l)) in *. set (v := _value (h l)).
  set (c1 := set_value v c0).
  (* the request *)
  assert (RequestProcessor.process [l] h
            (RequestProcessor.mk_RequestProcessor f [] ∅ ∅ w)
          = Ok (h, RequestProcessor.mk_RequestProcessor f [l] {[n := l]}
                     {[w := mk_window_data w {[n := PNum v]}]} w)) as Hreq.
  { unfold RequestProcessor.process, RequestProcessor.dedup,
      RequestProcessor.dedup_one. simpl. rewrite lookup_empty. simpl.
    unfold RequestProcessor.place_one, RequestProcessor.counter_window.
    rewrite Ht, lookup_empty. unfold finalize. rewrite Hc. simpl.
    unfold RequestProcessor.set_window_counter_data. simpl. do 3 f_equal.
    rewrite alter_insert_eq. simpl. by rewrite !insert_empty. }
  unfold log_and_store. rewrite Hreq. simpl.
  unfold RequestProcessor.serialize, batch_processor. simpl.
  rewrite map_to_list_singleton. simpl.
  (* the batch *)
  unfold BatchProcessor.process. rewrite for_each_singleton.
  unfold BatchProcessor.process_one. simpl.
  rewrite map_to_list_singleton, for_each_singleton.
  destruct (init_counters_fresh w f) as [Hwc Hav].
  assert (name c0 = n) as Hn0 by (by eapply fresh_counters_names).
  assert (aggregate (PNum v) c0 = Ok c1) as Hagg.
  { unfold aggregate, Counter_aggregate, offset, Counter_offset.
    rewrite Hc0. unfold c1. by rewrite Hv0, Qcplus_0_l. }
  rewrite (aggregate_one_at w _ n (PNum v) (fresh_counters f))
    by (by rewrite Hwc, lookup_singleton_eq).
  rewrite Hf, Hagg, !bind_Ok_l.
  (* the touched counters *)
  match goal with
  | |- BatchProcessor.finalize _ _ ?b _ = _ => set (b1 := b)
  end.
  assert (BatchProcessor.window_counters b1
          = {[w := <[n := c1]> (fresh_counters f)]}) as Hwc1.
  { unfold b1. simpl. rewrite Hwc. by rewrite alter_singleton_eq. }
  assert (BatchProcessor.window_counters_available b1 = {[w := {[n]}]})
    as Hav1.
  { unfold b1. simpl. rewrite Hav, alter_singleton_eq. f_equal. set_solver. }
  unfold BatchProcessor.finalize.
  rewrite Hwc1, map_to_list_singleton, for_each_singleton.
  rewrite (collect_window_touched b1 [] w (<[n := c1]> (fresh_counters f))).
  2: { intros w' m. rewrite Hwc1, Hav1.
       intros [<- <-]%lookup_singleton_Some. split.
       - intros n' c [[<- <-]|[_ ?]]%lookup_insert_Some; [done|].
         by eapply fresh_counters_names.
       - exists {[n]}. rewrite lookup_singleton_eq. split; [done|].
         rewrite dom_insert_L. set_solver. }
  2: { by rewrite Hwc1, lookup_singleton_eq. }
  rewrite bind_Ok_l. unfold touched_of. rewrite Hav1. simpl.
  rewrite lookup_singleton_eq. simpl.
  assert (filter (λ kv : string * counter, kv.1 ∈ ({[n]} : gset string))
                 (<[n := c1]> (fresh_counters f))
          = {[n := c1]}) as ->.
  { apply map_eq. intros k. apply option_eq. intros c.
    rewrite map_lookup_filter_Some, lookup_singleton_Some. simpl. split.
    - intros [[[<- <-]|[? _]]%lookup_insert_Some Hk]; [done|]. set_solver.
    - intros [<- <-]. rewrite lookup_insert_eq. split; [done | set_solver]. }
  rewrite decide_False by apply singleton_non_empty.
  simpl.
  (* the store *)
  rewrite (save_single strftime safe_join w n c1 ∅).
  assert (read_content ∅ (_make_log_path strftime safe_join w c1) = [] ++ [])
    as -> by done.
  rewrite (merge_window_sum_absent w c1 [] []);
    [|done|constructor|constructor|constructor|constructor].
  rewrite bind_merge_Ok. simpl. by rewrite insert_empty.
Qed.

End Pipeline.

(** A request processor on [factory_a], created when [time.time()] was
    89. *)
Definition processor_a_at_89 : RequestProcessor._RequestProcessor :=
  RequestProcessor.mk_RequestProcessor factory_a [] ∅ ∅ 60.

(** The counter named ["a"] that [factory_a] declares. *)
Definition declared_a : counter :=
  mk_counter Counter "a" DATE_FORMAT DATA_FILENAME None 0%Qc 0 None.

Lemma logged_counter_is_stored_witness :
  log_and_store Samples.strftime Samples.safe_join [0%nat] two_counters_a
    processor_a_at_89 ∅
  = Ok {[ Persistence._make_log_path Samples.strftime Samples.safe_join
            (RequestProcessor.default_window processor_a_at_89) declared_a
          := mk_stored_file
               [(RequestProcessor.default_window processor_a_at_89,
                 PNum (_value (two_counters_a 0%nat)))]
               (name (two_counters_a 0%nat))
               (day_start
                  (RequestProcessor.default_window processor_a_at_89)) ]}.
Proof.
  apply (logged_counter_is_stored Samples.strftime Samples.safe_join
           factory_a (Qc_of_Z 89) two_counters_a 0%nat processor_a_at_89
           declared_a); reflexivity.
Defined.
